(** * Transformer/run.py: dataflow extraction and feature assembly

    A shallow embedding of [extract_dataflow] and
    [convert_examples_to_features] of [Transformer/run.py], together with
    the properties of the graph pruner and of the feature assembler.

    Python values are modelled as follows:
    - [int] as [Z]; positions produced by [enumerate] as [nat];
    - [str] as the [string] of the bytes of its UTF-8 encoding, lists as
      [list];
    - the set [indexs] as a [gset Z], the dicts [index_to_code] and
      [parsers] as [gmap]s;
    - a raised exception as the [Raise] case of [result];
    - the local variables of [extract_dataflow] that are assigned inside
      its [try] block as a record of optional bindings, threaded through a
      small state-and-exception monad. *)

From stdpp Require Import gmap strings list sorting pretty.
From Stdlib Require Import ZArith Lia Ascii.

#[local] Set Warnings "-clear-no-such-hyp".

Local Open Scope string_scope.
Local Open Scope Z_scope.

(** ** Exceptions and results *)

Inductive exn : Type :=
| UnboundLocalError (name : string)
| KeyError (key : string)
| Exception (what : string).

Inductive result (A : Type) : Type :=
| Ok (a : A)
| Raise (e : exn).
Arguments Ok {A} a.
Arguments Raise {A} e.

Definition result_bind {A B} (r : result A) (k : A -> result B) : result B :=
  match r with
  | Ok a => k a
  | Raise e => Raise e
  end.

Definition result_map {A B} (f : A -> B) (r : result A) : result B :=
  result_bind r (fun a => Ok (f a)).

(** A list comprehension [[f(x) for x in l]] whose body may raise: the
    first failure aborts the comprehension. *)
Fixpoint comprehension {A B} (f : A -> result B) (l : list A) : result (list B) :=
  match l with
  | [] => Ok []
  | x :: l' =>
      result_bind (f x) (fun y =>
      result_bind (comprehension f l') (fun ys => Ok (y :: ys)))
  end.

(** ** Python list and string primitives *)

(** [l[:n]]: a negative stop counts from the end of the list. *)
Definition slice_to {A} (l : list A) (n : Z) : list A :=
  if 0 <=? n then take (Z.to_nat n) l
  else take (Z.to_nat (Z.of_nat (length l) + n)) l.

(** [l[1:]] *)
Definition slice_from_1 {A} (l : list A) : list A := drop 1 l.

(** [[x] * n]: empty when [n <= 0]. *)
Definition list_repeat {A} (x : A) (n : Z) : list A := replicate (Z.to_nat n) x.

(** [enumerate(l)] *)
Definition enumerate {A} (l : list A) : list (nat * A) := imap (fun i x => (i, x)) l.

(** [sep.join(l)] *)
Fixpoint str_join (sep : string) (l : list string) : string :=
  match l with
  | [] => ""
  | [s] => s
  | s :: l' => s +:+ sep +:+ str_join sep l'
  end.

(** [s.split(sep)] for a one-character separator, with the field being
    read kept in [cur]. *)
Fixpoint str_split_from (sep : ascii) (cur : string) (s : string) : list string :=
  match s with
  | EmptyString => [cur]
  | String c s' =>
      if Ascii.eqb c sep then cur :: str_split_from sep "" s'
      else str_split_from sep (cur +:+ String c EmptyString) s'
  end.

Definition str_split (sep : ascii) (s : string) : list string :=
  str_split_from sep "" s.

(** The newline character of ['\n']. *)
Definition newline : ascii := "010"%char.

(** [sorted(l, key=key)]: Python's sort is stable.  An element is put in
    front of the first element of the already sorted tail whose key is not
    smaller, so that equal keys keep the order of the input. *)
Section Sorted.
Context {A : Type} (key : A -> Z).

Fixpoint sorted_insert (x : A) (l : list A) : list A :=
  match l with
  | [] => [x]
  | y :: l' => if key x <=? key y then x :: y :: l' else y :: sorted_insert x l'
  end.

Fixpoint sorted (l : list A) : list A :=
  match l with
  | [] => []
  | x :: l' => sorted_insert x (sorted l')
  end.

Definition key_le (x y : A) : Prop := key x <= key y.
End Sorted.

(** ** Dataflow edges *)

(** An edge tuple [d] emitted by a [DFG_*] function.  [run.py] reads two of
    its components: [d[1]], the index of the target token, and [d[-1]], the
    indices the value flows from. *)
Record DataflowEdge : Type := mkEdge {
  identifier_text : string;
  target_index : Z;
  edge_kind : string;
  source_indices : list Z
}.

#[global] Instance DataflowEdge_eq_dec : EqDecision DataflowEdge.
Proof. solve_decision. Defined.

(** ** The graph pruner (lines 90-101 of [extract_dataflow]) *)

(** One iteration of [for d in DFG: ...] building [indexs]. *)
Definition indexs_step (indexs : gset Z) (d : DataflowEdge) : gset Z :=
  let indexs :=
    if negb (length (source_indices d) =? 0)%nat
    then indexs ∪ {[target_index d]} else indexs in
  foldl (fun s x => s ∪ {[x]}) indexs (source_indices d).

Definition collect_indexs (DFG : list DataflowEdge) : gset Z :=
  foldl indexs_step ∅ DFG.

(** One iteration of the loop filling [new_DFG]. *)
Definition new_DFG_step (indexs : gset Z) (new_DFG : list DataflowEdge)
    (d : DataflowEdge) : list DataflowEdge :=
  if decide (target_index d ∈ indexs) then (new_DFG ++ [d])%list else new_DFG.

Definition prune (DFG : list DataflowEdge) : list DataflowEdge :=
  let DFG := sorted target_index DFG in
  let indexs := collect_indexs DFG in
  foldl (new_DFG_step indexs) [] DFG.

(** The two ways in which the target of an edge [d] can be in [indexs]
    through another edge [e] that survives pruning: [e] lists the target of
    [d] among its sources, or [e] has sources and the same target. *)
Definition referenced_by_survivor (DFG : list DataflowEdge) (d : DataflowEdge) : Prop :=
  exists e, e ∈ prune DFG /\ e <> d /\ target_index d ∈ source_indices e.

Definition redefined_by_survivor (DFG : list DataflowEdge) (d : DataflowEdge) : Prop :=
  exists e, e ∈ prune DFG /\ e <> d /\
    source_indices e <> [] /\ target_index e = target_index d.

(** ** Local variables of [extract_dataflow]

    Of the names assigned inside the outer [try] block, only [code_tokens]
    and [dfg] are read after it.  Each is unbound until its assignment has
    run; reading an unbound local raises [UnboundLocalError]. *)

Record locals : Type := mkLocals {
  code_tokens_var : option (list string);
  dfg_var : option (list DataflowEdge)
}.

Definition unbound : locals := mkLocals None None.

(** A statement runs from a frame of locals to a frame of locals and either
    completes with a value or raises; the frame reached when an exception
    is raised is the one the handler starts from. *)
Definition stmt (A : Type) : Type := locals -> locals * result A.

Definition ret {A} (a : A) : stmt A := fun s => (s, Ok a).

Definition bind {A B} (m : stmt A) (k : A -> stmt B) : stmt B :=
  fun s =>
    match m s with
    | (s', Ok a) => k a s'
    | (s', Raise e) => (s', Raise e)
    end.

Declare Scope py_scope.
Delimit Scope py_scope with py.
Notation "x <- m ;; k" := (bind m (fun x => k))
  (at level 100, m at next level, right associativity) : py_scope.
Notation "m ;; k" := (bind m (fun _ => k))
  (at level 100, right associativity) : py_scope.

(** Calling a function that may raise. *)
Definition call {A} (r : result A) : stmt A := fun s => (s, r).

(** [try: body / except: handler] (a bare [except] catches everything). *)
Definition try_except {A} (body handler : stmt A) : stmt A :=
  fun s =>
    match body s with
    | (s', Ok a) => (s', Ok a)
    | (s', Raise _) => handler s'
    end.

Definition store_code_tokens (v : list string) : stmt unit :=
  fun s => (mkLocals (Some v) (dfg_var s), Ok tt).

Definition store_dfg (v : list DataflowEdge) : stmt unit :=
  fun s => (mkLocals (code_tokens_var s) (Some v), Ok tt).

Definition load_code_tokens : stmt (list string) :=
  fun s =>
    match code_tokens_var s with
    | Some v => (s, Ok v)
    | None => (s, Raise (UnboundLocalError "code_tokens"))
    end.

Definition load_dfg : stmt (list DataflowEdge) :=
  fun s =>
    match dfg_var s with
    | Some v => (s, Ok v)
    | None => (s, Raise (UnboundLocalError "dfg"))
    end.

(** Running a function body in a fresh frame. *)
Definition run_body {A} (m : stmt A) : result A := snd (m unbound).

(** ** Input record, configuration, tokenizer, output record *)

(** A JSON record [js] with the fields [convert_examples_to_features]
    reads. *)
Module js.
Record t : Type := mk {
  original_string : string;
  docstring_tokens : list string;
  url : string
}.
End js.

(** The fields of [args] read by [convert_examples_to_features]. *)
Module args.
Record t : Type := mk {
  lang : string;
  code_length : Z;
  nl_length : Z
}.
End args.

(** The tokenizer capability. *)
Module tokenizer.
Record t : Type := mk {
  tokenize : string -> list string;
  convert_tokens_to_ids : list string -> list Z;
  cls_token : string;
  sep_token : string;
  pad_token_id : Z
}.
End tokenizer.

(** [class InputFeatures] *)
Module InputFeatures.
Record t : Type := mk {
  code_tokens : list string;
  code_ids : list Z;
  nl_tokens : list string;
  nl_ids : list Z;
  url : string;
  teacher_code_ids : option (list Z);
  teacher_nl_ids : option (list Z)
}.

(** [__init__] *)
Definition init (code_tokens : list string) (code_ids : list Z)
    (nl_tokens : list string) (nl_ids : list Z) (url : string) : t :=
  mk code_tokens code_ids nl_tokens nl_ids url None None.
End InputFeatures.

(** ** The pipeline *)

Section Pipeline.
(** The types of the [tree_sitter] and [parser] packages: syntax trees,
    their nodes, the position of a leaf, and the table of last
    definitions threaded through a [DFG_*] function. *)
Context {Tree Node Span States : Type}.
Context `{Countable Span} `{Empty States}.

(** A [DFG_*] function: [(root_node, index_to_code, states)] to
    [(DFG, states)]. *)
Definition dfg_fn : Type :=
  Node -> gmap Span (nat * string) -> States ->
  result (list DataflowEdge * States).

(** What [run.py] imports from the [parser] package and from
    [tree_sitter].  [Parser_parse lang code] stands for
    [parser.parse(bytes(code, 'utf8'))] on the [Parser] whose language
    was set to [lang]. *)
Record imports : Type := mkImports {
  remove_comments_and_docstrings : string -> string -> result string;
  tree_to_token_index : Node -> result (list Span);
  index_to_code_token : Span -> list string -> result string;
  DFG_python : dfg_fn;
  DFG_java : dfg_fn;
  DFG_ruby : dfg_fn;
  DFG_go : dfg_fn;
  DFG_php : dfg_fn;
  DFG_javascript : dfg_fn;
  Parser_parse : string -> string -> result Tree;
  root_node : Tree -> Node
}.

(** An entry [[parser, dfg_function[lang]]] of [parsers]. *)
Record parser_entry : Type := mkEntry {
  parser_0 : string -> result Tree;
  parser_1 : dfg_fn
}.

Definition dfg_function (im : imports) : list (string * dfg_fn) :=
  [ ("python", DFG_python im); ("java", DFG_java im);
    ("ruby", DFG_ruby im); ("go", DFG_go im);
    ("php", DFG_php im); ("javascript", DFG_javascript im) ].

(** The loop [for lang in dfg_function: ...] filling [parsers]. *)
Definition parsers (im : imports) : gmap string parser_entry :=
  foldl (fun parsers '(lang, dfg) =>
           <[lang := mkEntry (Parser_parse im lang) dfg]> parsers)
        ∅ (dfg_function im).

(** The loop filling [index_to_code]. *)
Definition build_index_to_code (tokens_index : list Span)
    (code_tokens : list string) : gmap Span (nat * string) :=
  foldl (fun index_to_code '(idx, (index, code)) =>
           <[index := (idx, code)]> index_to_code)
        ∅ (enumerate (zip tokens_index code_tokens)).

(** The body of the outer [try] of [extract_dataflow]; [code] is the
    value of the variable [code] on entry. *)
Definition extract_dataflow_try (im : imports) (code : string)
    (parser : parser_entry) : stmt unit :=
  (tree <- call (parser_0 parser code) ;;
   let root_node := root_node im tree in
   tokens_index <- call (tree_to_token_index im root_node) ;;
   let code := str_split newline code in
   code_tokens <- call (comprehension
                          (fun x => index_to_code_token im x code)
                          tokens_index) ;;
   store_code_tokens code_tokens ;;
   let index_to_code := build_index_to_code tokens_index code_tokens in
   DFG <- try_except
            (r <- call (parser_1 parser root_node index_to_code ∅) ;;
             ret (fst r))
            (ret []) ;;
   store_dfg (prune DFG))%py.

Definition extract_dataflow (im : imports) (code : string)
    (parser : parser_entry) (lang : string)
    : result (list string * list DataflowEdge) :=
  let code :=
    match remove_comments_and_docstrings im code lang with
    | Ok code' => code'
    | Raise _ => code
    end in
  let code := if String.eqb lang "php" then "<?php" +:+ code +:+ "?>" else code in
  run_body
    (try_except (extract_dataflow_try im code parser) (store_dfg []) ;;
     code_tokens <- load_code_tokens ;;
     dfg <- load_dfg ;;
     ret (code_tokens, dfg))%py.

(** [parsers[lang]] *)
Definition parsers_getitem (im : imports) (lang : string) : result parser_entry :=
  match parsers im !! lang with
  | Some parser => Ok parser
  | None => Raise (KeyError lang)
  end.

Definition convert_examples_to_features (im : imports)
    (item : js.t * tokenizer.t * args.t) : result InputFeatures.t :=
  let '(js, tokenizer, args) := item in
  (* code *)
  result_bind (parsers_getitem im (args.lang args)) (fun parser =>
  result_bind (extract_dataflow im (js.original_string js) parser (args.lang args))
    (fun '(code_tokens, dfg) =>
  let code_tokens :=
    (fun '(idx, x) =>
       if negb (idx =? 0)%nat
       then slice_from_1 (tokenizer.tokenize tokenizer ("@ " +:+ x))
       else tokenizer.tokenize tokenizer x) <$> enumerate code_tokens in
  let code_tokens := concat code_tokens in
  let code_tokens := slice_to code_tokens (args.code_length args - 2) in
  let code_tokens :=
    ([tokenizer.cls_token tokenizer] ++ code_tokens
       ++ [tokenizer.sep_token tokenizer])%list in
  let code_ids := tokenizer.convert_tokens_to_ids tokenizer code_tokens in
  let padding_length := args.code_length args - Z.of_nat (length code_ids) in
  let code_ids :=
    (code_ids ++ list_repeat (tokenizer.pad_token_id tokenizer) padding_length)%list in
  (* nl *)
  let nl := str_join " " (js.docstring_tokens js) in
  let nl_tokens :=
    slice_to (tokenizer.tokenize tokenizer nl) (args.nl_length args - 2) in
  let nl_tokens :=
    ([tokenizer.cls_token tokenizer] ++ nl_tokens
       ++ [tokenizer.sep_token tokenizer])%list in
  let nl_ids := tokenizer.convert_tokens_to_ids tokenizer nl_tokens in
  let padding_length := args.nl_length args - Z.of_nat (length nl_ids) in
  let nl_ids :=
    (nl_ids ++ list_repeat (tokenizer.pad_token_id tokenizer) padding_length)%list in
  Ok (InputFeatures.init code_tokens code_ids nl_tokens nl_ids (js.url js)))).

(** The imports with comment stripping replaced by the identity. *)
Definition without_stripping (im : imports) : imports :=
  mkImports (fun code _ => Ok code)
    (tree_to_token_index im) (index_to_code_token im)
    (DFG_python im) (DFG_java im) (DFG_ruby im) (DFG_go im) (DFG_php im)
    (DFG_javascript im) (Parser_parse im) (root_node im).
End Pipeline.

(** ** A line-oriented instance of the imports

    A concrete, executable instance on which the pipeline can be run: a
    syntax tree is the list of the lines of the text, every line is one
    leaf, and the position of a leaf is its line number.  Stripping,
    parsing and the dataflow function are left open so that each can be
    made to fail. *)
Module Fixture.
Definition States : Type := gmap string (list Z).

Definition line_token (i : nat) (code : list string) : result string :=
  match code !! i with
  | Some s => Ok s
  | None => Raise (Exception "IndexError")
  end.

Definition line_imports
    (strip : string -> string -> result string)
    (parse : string -> result (list string))
    (dfg : dfg_fn (Node:=list string) (Span:=nat) (States:=States))
    : imports (Tree:=list string) (Node:=list string) (Span:=nat) (States:=States) :=
  mkImports strip (fun root => Ok (seq 0 (length root))) line_token
    dfg dfg dfg dfg dfg dfg (fun _ => parse) id.

Definition strip_ok (code lang : string) : result string := Ok code.
Definition strip_fails (code lang : string) : result string :=
  Raise (Exception "tokenize.TokenError").

Definition parse_lines (code : string) : result (list string) :=
  Ok (str_split newline code).
Definition parse_fails (code : string) : result (list string) :=
  Raise (Exception "UnicodeEncodeError").

Definition dfg_const (DFG : list DataflowEdge)
    : dfg_fn (Node:=list string) (Span:=nat) (States:=States) :=
  fun _ _ states => Ok (DFG, states).
Definition dfg_fails : dfg_fn (Node:=list string) (Span:=nat) (States:=States) :=
  fun _ _ _ => Raise (Exception "RecursionError").

(** A tokenizer that splits at spaces and numbers a piece by its
    length. *)
Definition space_tokenizer : tokenizer.t :=
  tokenizer.mk (str_split " "%char)
    (fmap (fun s => Z.of_nat (String.length s)))
    "<s>" "</s>" 1.

Definition entry (parse : string -> result (list string))
    (dfg : dfg_fn (Node:=list string) (Span:=nat) (States:=States))
    : parser_entry (Tree:=list string) (Node:=list string) (Span:=nat) (States:=States) :=
  mkEntry parse dfg.

(** Two edges on the same target, the first without sources. *)
Definition redefined : list DataflowEdge :=
  [ mkEdge "x" 1 "comesFrom" []; mkEdge "x" 1 "computedFrom" [5] ].

Definition record (code : string) (doc : list string) : js.t :=
  js.mk code doc "https://example.org/f".

(** Two lines of source text. *)
Definition two_lines : string := "x = 1" +:+ String newline "y = x".

(** Imports in which every step succeeds, and imports in which one step
    raises. *)
Definition im_ok := line_imports strip_ok parse_lines (dfg_const redefined).
Definition im_strip_fails :=
  line_imports strip_fails parse_lines (dfg_const redefined).
Definition im_parse_fails :=
  line_imports strip_ok parse_fails (dfg_const redefined).
Definition im_dfg_fails := line_imports strip_ok parse_lines dfg_fails.
End Fixture.

(** ** Effects on a state

    [TextDataset] reads and writes files and [set_seed] changes the state
    of the process: a computation runs from a state to a state and either
    completes with a value or raises. *)

Definition eff (S A : Type) : Type := S -> S * result A.

Definition eff_ret {S A} (a : A) : eff S A := fun s => (s, Ok a).

Definition eff_bind {S A B} (m : eff S A) (k : A -> eff S B) : eff S B :=
  fun s =>
    match m s with
    | (s', Ok a) => k a s'
    | (s', Raise e) => (s', Raise e)
    end.

(** A call that may raise and leaves the state alone. *)
Definition eff_call {S A} (r : result A) : eff S A := fun s => (s, r).

(** A call that reads the state. *)
Definition eff_read {S A} (f : S -> result A) : eff S A := fun s => (s, f s).

Declare Scope eff_scope.
Delimit Scope eff_scope with eff.
Notation "x <- m ;; k" := (eff_bind m (fun x => k))
  (at level 100, m at next level, right associativity) : eff_scope.
Notation "m ;; k" := (eff_bind m (fun _ => k))
  (at level 100, right associativity) : eff_scope.

(** ** More Python primitives *)

(** [l[i]]: a negative index counts from the end; an index out of range
    raises [IndexError]. *)
Definition list_getitem {A} (l : list A) (i : Z) : result A :=
  let j := if i <? 0 then i + Z.of_nat (length l) else i in
  if (0 <=? j) && (j <? Z.of_nat (length l)) then
    match l !! Z.to_nat j with
    | Some x => Ok x
    | None => Raise (Exception "IndexError")
    end
  else Raise (Exception "IndexError").

(** A [str] is held as the string of the bytes of its UTF-8 encoding.  A
    character is a byte that is not a continuation byte ([10xxxxxx])
    together with the continuation bytes that follow it; [str_chars] lists
    the characters of a string, [cur] being the character that is being
    read. *)
Definition is_continuation (c : ascii) : bool :=
  match c with
  | Ascii _ _ _ _ _ _ b6 b7 => b7 && negb b6
  end.

Definition str_emit (cur : string) : list string :=
  match cur with
  | EmptyString => []
  | _ => [cur]
  end.

Fixpoint str_chars_from (cur : string) (s : string) : list string :=
  match s with
  | EmptyString => str_emit cur
  | String c s' =>
      if is_continuation c then str_chars_from (cur +:+ String c EmptyString) s'
      else (str_emit cur ++ str_chars_from (String c EmptyString) s')%list
  end.

Definition str_chars (s : string) : list string := str_chars_from "" s.

(** [''.join(l)] *)
Definition str_concat (l : list string) : string := foldr String.append "" l.

(** [s[:n]] on a string: the slice counts characters. *)
Definition str_slice_to (s : string) (n : Z) : string :=
  str_concat (slice_to (str_chars s) n).

(** [l[a:b]] for [0 <= a]. *)
Definition slice_between {A} (l : list A) (a b : nat) : list A :=
  take (b - a) (drop a l).

(** [range(n)] *)
Definition range (n : nat) : list nat := seq 0 n.

(** [np.concatenate(arrays, 0)] on a list of one-dimensional arrays: numpy
    refuses an empty list. *)
Definition np_concatenate {A} (arrays : list (list A)) : result (list A) :=
  match arrays with
  | [] => Raise (Exception "ValueError: need at least one array to concatenate")
  | _ => Ok (concat arrays)
  end.

(** ** [TextDataset] *)

(** [args] as [TextDataset] reads it: the fields read through
    [convert_examples_to_features], and [output_dir]. *)
Module dataset_args.
Record t : Type := mk {
  features : args.t;
  output_dir : string
}.
End dataset_args.

(** A [multiprocessing.Pool]. *)
Inductive Pool : Type := multiprocessing_Pool (processes : Z).

(** [pool.map(f, data)]: the results in the order of [data], or the
    exception of a task that failed.  When several tasks fail the pool
    re-raises the failure that reaches it first; the model takes the first
    in the order of [data]. *)
Definition Pool_map {A B} (pool : Pool) (f : A -> result B) (data : list A)
    : result (list B) :=
  comprehension f data.

(** The first two statements of [TextDataset.__init__]: the cache file of
    a data file. *)
Definition cache_file (output_dir file_path : string) : result string :=
  result_bind (list_getitem (str_split "/"%char file_path) (-1)) (fun name =>
  let prefix := str_slice_to name (-6) in
  Ok (output_dir +:+ "/" +:+ prefix +:+ ".pkl")).

Module TextDataset.
Record t : Type := mk { examples : list InputFeatures.t }.

Section Methods.
Context {FS Tensor : Type}.
Context {Tree Node Span States : Type}.
Context `{Countable Span} `{Empty States}.

(** What [TextDataset] uses of [os], [pickle], [json], [torch] and the
    built-in [open], on a file system [FS]:
    [os.path.exists(p)], [pickle.load(open(p, 'rb'))], the lines of
    [open(p)], [json.loads(line.strip())], [pickle.dump(x, open(p, 'wb'))]
    and [torch.tensor(ids)]. *)
Record io_imports : Type := mkIo {
  os_path_exists : FS -> string -> bool;
  pickle_load : FS -> string -> result (list InputFeatures.t);
  read_lines : FS -> string -> result (list string);
  json_loads_strip : string -> result js.t;
  pickle_dump : FS -> string -> list InputFeatures.t -> FS * result unit;
  torch_tensor : list Z -> result Tensor
}.

(** [__init__].  The logging of the first three examples of a training
    file changes neither the object nor the files and is left out. *)
Definition init (io : io_imports)
    (im : imports (Tree:=Tree) (Node:=Node) (Span:=Span) (States:=States))
    (tokenizer : tokenizer.t) (args : dataset_args.t)
    (file_path : option string) (pool : option Pool) : eff FS t :=
  (file_path <- eff_call
                  match file_path with
                  | Some p => Ok p
                  | None => Raise (Exception "AttributeError: split")
                  end ;;
   cache_file <- eff_call (cache_file (dataset_args.output_dir args) file_path) ;;
   cached <- eff_read (fun fs => Ok (os_path_exists io fs cache_file)) ;;
   if cached : bool then
     examples <- eff_read (fun fs => pickle_load io fs cache_file) ;;
     eff_ret (mk examples)
   else
     lines <- eff_read (fun fs => read_lines io fs file_path) ;;
     data <- eff_call
               (comprehension
                  (fun line =>
                     result_bind (json_loads_strip io line) (fun js =>
                     Ok (js, tokenizer, dataset_args.features args)))
                  lines) ;;
     pool <- eff_call
               match pool with
               | Some pool => Ok pool
               | None => Raise (Exception "AttributeError: map")
               end ;;
     examples <- eff_call (Pool_map pool (convert_examples_to_features im) data) ;;
     (fun fs => pickle_dump io fs cache_file examples) ;;
     eff_ret (mk examples))%eff.

(** [__len__] *)
Definition len (self : t) : nat := length (examples self).

(** [__getitem__] *)
Definition getitem (io : io_imports) (self : t) (i : Z)
    : result (Tensor * Tensor) :=
  result_bind (list_getitem (examples self) i) (fun example =>
  result_bind (torch_tensor io (InputFeatures.code_ids example)) (fun code =>
  result_bind (list_getitem (examples self) i) (fun example =>
  result_bind (torch_tensor io (InputFeatures.nl_ids example)) (fun nl =>
  Ok (code, nl))))).
End Methods.
End TextDataset.

(** ** The ranking loop of [evaluate] (lines 319-330)

    [reciprocal_ranks nl_vec_sample code_vec_sample] stands for the
    floating-point part of the loop body: the scores of the two samples,
    their diagonal, the rank of every query and its reciprocal. *)
Section Ranking.
Context {V R : Type}.

Definition evaluate_ranks
    (reciprocal_ranks : list V -> list V -> result (list R))
    (len_query_dataset : nat) (nl_vecs code_vecs : list V) : result (list R) :=
  result_bind
    (comprehension
       (fun i =>
          let nl_vec_sample :=
            slice_between nl_vecs (1000 * i) (1000 * (i + 1)) in
          let code_vec_sample :=
            slice_between code_vecs (1000 * i) (1000 * (i + 1)) in
          reciprocal_ranks nl_vec_sample code_vec_sample)
       (range (len_query_dataset / 1000)))
    (fun ranks => np_concatenate ranks).
End Ranking.

(** ** [set_seed] *)

(** The state of the process that [set_seed] touches: the environment
    variables and the random number generators. *)
Record process (RNG : Type) : Type := mkProcess {
  environ : gmap string string;
  generators : RNG
}.
Arguments mkProcess {RNG} environ generators.
Arguments environ {RNG} p.
Arguments generators {RNG} p.

Section SetSeed.
Context {RNG : Type}.

(** The seeding functions of [random], [numpy] and [torch], and the
    assignment to [torch.backends.cudnn.deterministic]. *)
Record seed_imports : Type := mkSeed {
  random_seed : Z -> RNG -> RNG * result unit;
  np_random_seed : Z -> RNG -> RNG * result unit;
  torch_manual_seed : Z -> RNG -> RNG * result unit;
  torch_cuda_manual_seed : Z -> RNG -> RNG * result unit;
  set_cudnn_deterministic : bool -> RNG -> RNG
}.

(** A call on the generators, within the process. *)
Definition on_generators (f : RNG -> RNG * result unit) : eff (process RNG) unit :=
  fun p =>
    let '(g, r) := f (generators p) in (mkProcess (environ p) g, r).

(** [os.environ[key] = value] *)
Definition environ_setitem (key value : string) : eff (process RNG) unit :=
  fun p => (mkProcess (<[key := value]> (environ p)) (generators p), Ok tt).

Definition set_seed (si : seed_imports) (seed : Z) : eff (process RNG) unit :=
  (on_generators (random_seed si seed) ;;
   environ_setitem "PYHTONHASHSEED" (pretty seed) ;;
   on_generators (np_random_seed si seed) ;;
   on_generators (torch_manual_seed si seed) ;;
   on_generators (torch_cuda_manual_seed si seed) ;;
   on_generators (fun g => (set_cudnn_deterministic si true g, Ok tt)))%eff.
End SetSeed.

(** ** A file system in a map

    An executable instance of the imports of [TextDataset]: a file is a
    pickled list of examples or a text of lines, a record is read from a
    line by taking the line as the source text and its words as the
    description, and the empty line is not a record. *)
Module DiskFixture.
Inductive file : Type :=
| Pickled (examples : list InputFeatures.t)
| Text (lines : list string).

Definition FS : Type := gmap string file.

Definition exists_ (fs : FS) (p : string) : bool := bool_decide (is_Some (fs !! p)).

Definition load (fs : FS) (p : string) : result (list InputFeatures.t) :=
  match fs !! p with
  | Some (Pickled examples) => Ok examples
  | Some (Text _) => Raise (Exception "UnpicklingError")
  | None => Raise (Exception "FileNotFoundError")
  end.

Definition lines_of (fs : FS) (p : string) : result (list string) :=
  match fs !! p with
  | Some (Text lines) => Ok lines
  | Some (Pickled _) => Raise (Exception "UnicodeDecodeError")
  | None => Raise (Exception "FileNotFoundError")
  end.

Definition loads (line : string) : result js.t :=
  if String.eqb line "" then Raise (Exception "JSONDecodeError")
  else Ok (js.mk line (str_split " "%char line) "https://example.org/f").

Definition dump (fs : FS) (p : string) (examples : list InputFeatures.t)
    : FS * result unit :=
  (<[p := Pickled examples]> fs, Ok tt).

Definition io : TextDataset.io_imports (FS:=FS) (Tensor:=list Z) :=
  TextDataset.mkIo exists_ load lines_of loads dump (fun ids => Ok ids).

Definition run_args : dataset_args.t :=
  dataset_args.mk (args.mk "java" 6 8) "out".

Definition disk : FS := {[ "data/valid.jsonl" := Text ["x = 1"; "y = x"] ]}.

Definition disk_bad_line : FS :=
  {[ "data/valid.jsonl" := Text ["x = 1"; ""] ]}.
End DiskFixture.

(** * Properties *)

(** ** The stable sort *)

Section SortedFacts.
Context {A : Type} (key : A -> Z).

#[local] Instance key_le_trans : Transitive (key_le key).
Proof. unfold key_le. intros x y z ? ?. lia. Qed.

Lemma sorted_insert_perm x l : sorted_insert key x l ≡ₚ x :: l.
Proof.
  induction l as [|y l IH]; simpl; [done|].
  destruct (key x <=? key y); [done|].
  rewrite IH. apply Permutation_swap.
Qed.

Lemma sorted_perm l : sorted key l ≡ₚ l.
Proof.
  induction l as [|x l IH]; simpl; [done|].
  by rewrite sorted_insert_perm, IH.
Qed.

Lemma sorted_insert_HdRel z x l :
  key z <= key x -> HdRel (key_le key) z l ->
  HdRel (key_le key) z (sorted_insert key x l).
Proof.
  intros Hzx Hz. destruct l as [|y l]; simpl.
  - by constructor.
  - destruct (key x <=? key y); constructor; [done|].
    by inversion Hz.
Qed.

Lemma sorted_insert_Sorted x l :
  Sorted (key_le key) l -> Sorted (key_le key) (sorted_insert key x l).
Proof.
  induction 1 as [|y l Hl IH Hy]; simpl.
  - by repeat constructor.
  - destruct (Z.leb_spec (key x) (key y)) as [Hxy|Hxy].
    + constructor; [by constructor|]. by constructor.
    + constructor; [done|].
      apply sorted_insert_HdRel; [|done]. lia.
Qed.

Lemma sorted_Sorted l : Sorted (key_le key) (sorted key l).
Proof.
  induction l; simpl; [constructor|]. by apply sorted_insert_Sorted.
Qed.

(** Stability: the elements of any one key are not reordered. *)
Lemma sorted_insert_stable k x l :
  filter (fun y => key y = k) (sorted_insert key x l)
  = filter (fun y => key y = k) (x :: l).
Proof.
  induction l as [|y l IH]; simpl; [done|].
  destruct (Z.leb_spec (key x) (key y)) as [Hxy|Hxy]; [done|].
  rewrite (filter_cons _ y), IH, !filter_cons.
  repeat case_decide; try done; lia.
Qed.

Lemma sorted_stable k l :
  filter (fun y => key y = k) (sorted key l) = filter (fun y => key y = k) l.
Proof.
  induction l as [|x l IH]; simpl; [done|].
  by rewrite sorted_insert_stable, !filter_cons, IH.
Qed.

(** Sorting a list that is already in order changes nothing. *)
Lemma sorted_of_Sorted l : Sorted (key_le key) l -> sorted key l = l.
Proof.
  induction 1 as [|x l Hl IH Hx]; simpl; [done|].
  rewrite IH. destruct Hx as [|y l' Hxy]; simpl; [done|].
  unfold key_le in Hxy.
  by destruct (Z.leb_spec (key x) (key y)); [|lia].
Qed.

Lemma Sorted_filter (P : A -> Prop) `{!forall x, Decision (P x)} l :
  Sorted (key_le key) l -> Sorted (key_le key) (filter P l).
Proof.
  intros Hl. apply Sorted_StronglySorted in Hl; [|apply _].
  apply StronglySorted_Sorted.
  induction Hl as [|x l Hl IH Hx]; [constructor|].
  rewrite filter_cons. case_decide; [|done].
  constructor; [done|].
  apply Forall_forall. intros y [_ Hy]%list_elem_of_filter.
  by eapply Forall_forall in Hx.
Qed.
End SortedFacts.

(** ** The two loops of the pruner *)

Lemma elem_of_add_sources (i : Z) (xs : list Z) (s : gset Z) :
  i ∈ foldl (fun s x => s ∪ {[x]}) s xs <-> i ∈ s \/ i ∈ xs.
Proof.
  revert s. induction xs as [|x xs IH]; intros s; simpl.
  - set_solver.
  - rewrite IH. set_solver.
Qed.

Lemma elem_of_indexs_step (i : Z) (s : gset Z) (d : DataflowEdge) :
  i ∈ indexs_step s d <->
  i ∈ s \/ (source_indices d <> [] /\ target_index d = i) \/ i ∈ source_indices d.
Proof.
  unfold indexs_step. rewrite elem_of_add_sources.
  destruct (source_indices d) as [|x xs]; simpl.
  - set_solver.
  - set_solver.
Qed.

Lemma elem_of_foldl_indexs_step (i : Z) (DFG : list DataflowEdge) (s : gset Z) :
  i ∈ foldl indexs_step s DFG <->
  i ∈ s \/ exists d, d ∈ DFG /\
    ((source_indices d <> [] /\ target_index d = i) \/ i ∈ source_indices d).
Proof.
  revert s. induction DFG as [|d DFG IH]; intros s; simpl.
  - split; [auto|]. intros [?|(d & Hd & _)]; [done|]. by apply elem_of_nil in Hd.
  - rewrite IH, elem_of_indexs_step. split.
    + intros [[?|Hd]|(d' & Hd' & H')]; [by left| |].
      * right. exists d. split; [left|done].
      * right. exists d'. split; [by right|done].
    + intros [?|(d' & Hd' & H')]; [by left; left|].
      apply elem_of_cons in Hd' as [->|Hd']; [by left; right|].
      right. by exists d'.
Qed.

(** Membership in [indexs], in terms of the edges the loop has seen. *)
Lemma elem_of_collect_indexs (i : Z) (DFG : list DataflowEdge) :
  i ∈ collect_indexs DFG <->
  exists d, d ∈ DFG /\
    ((source_indices d <> [] /\ target_index d = i) \/ i ∈ source_indices d).
Proof.
  unfold collect_indexs. rewrite elem_of_foldl_indexs_step. set_solver.
Qed.

Lemma collect_indexs_perm (DFG DFG' : list DataflowEdge) :
  DFG ≡ₚ DFG' -> collect_indexs DFG = collect_indexs DFG'.
Proof.
  intros HP. apply set_eq. intros i. rewrite !elem_of_collect_indexs.
  by setoid_rewrite HP.
Qed.

Lemma foldl_new_DFG_step (indexs : gset Z) (DFG acc : list DataflowEdge) :
  foldl (new_DFG_step indexs) acc DFG
  = (acc ++ filter (fun d => target_index d ∈ indexs) DFG)%list.
Proof.
  revert acc. induction DFG as [|d DFG IH]; intros acc; simpl.
  - by rewrite app_nil_r.
  - rewrite IH, filter_cons. unfold new_DFG_step.
    case_decide; [|done]. by rewrite <- app_assoc.
Qed.

(** The pruner as a filter of the sorted list. *)
Lemma prune_filter (DFG : list DataflowEdge) :
  prune DFG
  = filter (fun d => target_index d ∈ collect_indexs DFG) (sorted target_index DFG).
Proof.
  unfold prune. rewrite foldl_new_DFG_step. simpl.
  by rewrite (collect_indexs_perm _ _ (sorted_perm target_index DFG)).
Qed.

Lemma elem_of_prune (d : DataflowEdge) (DFG : list DataflowEdge) :
  d ∈ prune DFG <-> d ∈ DFG /\ target_index d ∈ collect_indexs DFG.
Proof.
  rewrite prune_filter, list_elem_of_filter, (sorted_perm target_index DFG).
  tauto.
Qed.

(** An edge that carries sources always survives. *)
Lemma prune_keeps_sourced (d : DataflowEdge) (DFG : list DataflowEdge) :
  d ∈ DFG -> source_indices d <> [] -> d ∈ prune DFG.
Proof.
  intros Hd Hne. apply elem_of_prune. split; [done|].
  apply elem_of_collect_indexs. exists d. auto.
Qed.

(** Pruning does not change the set of indices. *)
Lemma collect_indexs_prune (DFG : list DataflowEdge) :
  collect_indexs (prune DFG) = collect_indexs DFG.
Proof.
  apply set_eq. intros i. rewrite !elem_of_collect_indexs. split.
  - intros (d & [Hd _]%elem_of_prune & H). by exists d.
  - intros (d & Hd & H). exists d. split; [|done].
    apply prune_keeps_sourced; [done|].
    destruct H as [[? _]|H]; [done|]. intros Heq. rewrite Heq in H.
    by apply elem_of_nil in H.
Qed.

(** C3: the pruner sorts the edges by [target_index] with a stable sort (a
    permutation of the input, ascending in [target_index], edges of equal
    [target_index] in their emission order), computes the set of the
    indices that are the [target_index] of an edge with non-empty
    [source_indices] or occur in the [source_indices] of an edge, and
    returns exactly the sorted edges whose [target_index] is in that set. *)
Theorem prune_sorts_then_filters (DFG : list DataflowEdge) :
  (sorted target_index DFG ≡ₚ DFG
   /\ Sorted (key_le target_index) (sorted target_index DFG)
   /\ forall k : Z,
        filter (fun d => target_index d = k) (sorted target_index DFG)
        = filter (fun d => target_index d = k) DFG)
  /\ (forall i : Z,
        i ∈ collect_indexs (sorted target_index DFG) <->
        exists d, d ∈ DFG /\
          ((source_indices d <> [] /\ target_index d = i)
           \/ i ∈ source_indices d))
  /\ prune DFG
     = filter (fun d => target_index d ∈ collect_indexs (sorted target_index DFG))
         (sorted target_index DFG).
Proof.
  split; [|split].
  - split; [apply sorted_perm|]. split; [apply sorted_Sorted|].
    intros k. apply sorted_stable.
  - intros i.
    rewrite (collect_indexs_perm _ _ (sorted_perm target_index DFG)).
    apply elem_of_collect_indexs.
  - unfold prune. by rewrite foldl_new_DFG_step.
Qed.

(** C5: the pruner is idempotent: pruning its own output returns that
    output unchanged. *)
Theorem prune_idempotent (DFG : list DataflowEdge) :
  prune (prune DFG) = prune DFG.
Proof.
  rewrite (prune_filter (prune DFG)), collect_indexs_prune.
  rewrite sorted_of_Sorted.
  - rewrite prune_filter. by apply list_filter_filter_l.
  - rewrite prune_filter. apply Sorted_filter, sorted_Sorted.
Qed.

(** Counterexample to C4 as stated: in [Fixture.redefined] the edge without
    sources survives although no surviving edge lists its target among its
    sources; it survives because the other edge, which has sources, has
    the same target. *)
Lemma unreferenced_empty_edge_survives :
  mkEdge "x" 1 "comesFrom" [] ∈ Fixture.redefined
  /\ source_indices (mkEdge "x" 1 "comesFrom" []) = []
  /\ mkEdge "x" 1 "comesFrom" [] ∈ prune Fixture.redefined
  /\ ~ referenced_by_survivor Fixture.redefined (mkEdge "x" 1 "comesFrom" []).
Proof.
  assert (Hp : prune Fixture.redefined = Fixture.redefined) by by vm_compute.
  split; [by left|]. split; [done|]. split.
  - rewrite Hp. by left.
  - intros (e & He & _ & Hin). rewrite Hp in He.
    unfold Fixture.redefined in He.
    apply elem_of_cons in He as [->|He]; simpl in Hin.
    + by apply elem_of_nil in Hin.
    + apply list_elem_of_singleton in He as ->. simpl in Hin.
      by apply list_elem_of_singleton in Hin.
Qed.

(** C4, amended: an edge without sources survives pruning if and only if
    another surviving edge lists its target among its sources, or another
    surviving edge that has sources has the same target. *)
Theorem empty_source_edge_survival (DFG : list DataflowEdge) (d : DataflowEdge) :
  d ∈ DFG -> source_indices d = [] ->
  (d ∈ prune DFG <->
   referenced_by_survivor DFG d \/ redefined_by_survivor DFG d).
Proof.
  intros Hd Hsrc. rewrite elem_of_prune, elem_of_collect_indexs. split.
  - intros (_ & e & He & Hcase).
    assert (Hne : source_indices e <> []).
    { destruct Hcase as [[? _]|Hin]; [done|]. intros Heq.
      rewrite Heq in Hin. by apply elem_of_nil in Hin. }
    assert (Hed : e <> d) by (intros ->; done).
    pose proof (prune_keeps_sourced e DFG He Hne) as Hsurv.
    destruct Hcase as [[_ Htgt]|Hin].
    + right. by exists e.
    + left. by exists e.
  - intros Hcase. split; [done|].
    destruct Hcase as [(e & [He _]%elem_of_prune & _ & Hin)
                      |(e & [He _]%elem_of_prune & _ & Hne & Htgt)];
      exists e; auto.
Qed.

Lemma empty_source_edge_survival_witness :
  mkEdge "x" 1 "comesFrom" [] ∈ Fixture.redefined
  /\ source_indices (mkEdge "x" 1 "comesFrom" []) = []
  /\ (mkEdge "x" 1 "comesFrom" [] ∈ prune Fixture.redefined <->
      referenced_by_survivor Fixture.redefined (mkEdge "x" 1 "comesFrom" [])
      \/ redefined_by_survivor Fixture.redefined (mkEdge "x" 1 "comesFrom" [])).
Proof.
  split; [apply list_elem_of_here|]. split; [reflexivity|].
  apply (empty_source_edge_survival Fixture.redefined
           (mkEdge "x" 1 "comesFrom" [])).
  - apply list_elem_of_here.
  - reflexivity.
Defined.

(** ** [extract_dataflow] *)

Section ExtractFacts.
Context {Tree Node Span States : Type}.
Context `{Countable Span} `{Empty States}.
Implicit Types (im : imports (Tree:=Tree) (Node:=Node) (Span:=Span) (States:=States)).
Implicit Types (parser : parser_entry (Tree:=Tree) (Node:=Node) (Span:=Span) (States:=States)).

(** The frame and outcome of the outer [try] body, by the first call
    that raises. *)
Lemma extract_dataflow_try_parse_raises im code parser e s :
  parser_0 parser code = Raise e ->
  extract_dataflow_try im code parser s = (s, Raise e).
Proof. intros Hp. unfold extract_dataflow_try, bind, call. by rewrite Hp. Qed.

Lemma extract_dataflow_try_index_raises im code parser tree e s :
  parser_0 parser code = Ok tree ->
  tree_to_token_index im (root_node im tree) = Raise e ->
  extract_dataflow_try im code parser s = (s, Raise e).
Proof.
  intros Hp Hi. unfold extract_dataflow_try, bind, call. by rewrite Hp, Hi.
Qed.

Lemma extract_dataflow_try_token_raises im code parser tree tokens_index e s :
  parser_0 parser code = Ok tree ->
  tree_to_token_index im (root_node im tree) = Ok tokens_index ->
  comprehension (fun x => index_to_code_token im x (str_split newline code))
    tokens_index = Raise e ->
  extract_dataflow_try im code parser s = (s, Raise e).
Proof.
  intros Hp Hi Hc. unfold extract_dataflow_try, bind, call.
  by rewrite Hp, Hi, Hc.
Qed.

Lemma extract_dataflow_try_completes im code parser tree tokens_index code_tokens s :
  parser_0 parser code = Ok tree ->
  tree_to_token_index im (root_node im tree) = Ok tokens_index ->
  comprehension (fun x => index_to_code_token im x (str_split newline code))
    tokens_index = Ok code_tokens ->
  extract_dataflow_try im code parser s
  = (mkLocals (Some code_tokens)
       (Some (prune
          match parser_1 parser (root_node im tree)
                  (build_index_to_code tokens_index code_tokens) ∅ with
          | Ok r => fst r
          | Raise _ => []
          end)),
     Ok tt).
Proof.
  intros Hp Hi Hc.
  unfold extract_dataflow_try, bind, call, try_except, store_code_tokens,
    store_dfg, ret.
  rewrite Hp, Hi, Hc. simpl.
  by destruct (parser_1 parser _ _ _).
Qed.

(** The text on which the outer [try] of [extract_dataflow] runs. *)
Lemma extract_dataflow_on_text im code parser lang :
  extract_dataflow im code parser lang
  = run_body
      (try_except
         (extract_dataflow_try im
            (if String.eqb lang "php"
             then "<?php" +:+
                  match remove_comments_and_docstrings im code lang with
                  | Ok code' => code'
                  | Raise _ => code
                  end +:+ "?>"
             else match remove_comments_and_docstrings im code lang with
                  | Ok code' => code'
                  | Raise _ => code
                  end)
            parser)
         (store_dfg []) ;;
       code_tokens <- load_code_tokens ;;
       dfg <- load_dfg ;;
       ret (code_tokens, dfg))%py.
Proof. reflexivity. Qed.

(** When the outer [try] body raises before [code_tokens] is assigned,
    the handler binds [dfg] only and the [return] statement fails. *)
Lemma return_after_early_failure (body : stmt unit) e :
  body unbound = (unbound, Raise e) ->
  run_body
    (try_except body (store_dfg []) ;;
     code_tokens <- load_code_tokens ;;
     dfg <- load_dfg ;;
     ret (code_tokens, dfg))%py
  = Raise (UnboundLocalError "code_tokens").
Proof.
  intros Hb. unfold run_body, bind, try_except. by rewrite Hb.
Qed.

Lemma return_after_completion (body : stmt unit) code_tokens dfg :
  body unbound = (mkLocals (Some code_tokens) (Some dfg), Ok tt) ->
  run_body
    (try_except body (store_dfg []) ;;
     code_tokens <- load_code_tokens ;;
     dfg <- load_dfg ;;
     ret (code_tokens, dfg))%py
  = Ok (code_tokens, dfg).
Proof.
  intros Hb. unfold run_body, bind, try_except. by rewrite Hb.
Qed.

(** Whatever the outer [try] body does, the result is determined by the
    text it runs on. *)
Lemma extract_dataflow_without_stripping im code parser lang :
  lang <> "php" ->
  extract_dataflow (without_stripping im) code parser lang
  = run_body
      (try_except (extract_dataflow_try im code parser) (store_dfg []) ;;
       code_tokens <- load_code_tokens ;;
       dfg <- load_dfg ;;
       ret (code_tokens, dfg))%py.
Proof.
  intros Hl. rewrite extract_dataflow_on_text. simpl.
  by destruct (String.eqb_spec lang "php").
Qed.
End ExtractFacts.

Section ExtractClaims.
Context {Tree Node Span States : Type}.
Context `{Countable Span} `{Empty States}.
Implicit Types (im : imports (Tree:=Tree) (Node:=Node) (Span:=Span) (States:=States)).
Implicit Types (parser : parser_entry (Tree:=Tree) (Node:=Node) (Span:=Span) (States:=States)).

(** C1 (what the code does instead): when parsing the text raises, the
    handler of the outer [try] binds [dfg] only, and [extract_dataflow]
    does not return an empty token list and an empty graph: its [return]
    statement raises [UnboundLocalError] for [code_tokens]. *)
Theorem extract_dataflow_parse_failure_raises
    im code parser lang stripped text e :
  stripped = match remove_comments_and_docstrings im code lang with
             | Ok code' => code'
             | Raise _ => code
             end ->
  text = (if String.eqb lang "php" then "<?php" +:+ stripped +:+ "?>"
          else stripped) ->
  parser_0 parser text = Raise e ->
  extract_dataflow im code parser lang = Raise (UnboundLocalError "code_tokens").
Proof.
  intros -> -> Hp. rewrite extract_dataflow_on_text.
  apply (return_after_early_failure _ e).
  destruct (String.eqb lang "php");
    by apply extract_dataflow_try_parse_raises.
Qed.

(** The outcome of [extract_dataflow] is decided by what the parser, the
    token indexer, the token slicer and the dataflow function do on one
    text: the stripped source, or the original source when stripping
    raised, wrapped for [php]. *)
Lemma extract_dataflow_decided_on_text im code parser lang text :
  text = (if String.eqb lang "php"
          then "<?php" +:+
               match remove_comments_and_docstrings im code lang with
               | Ok code' => code'
               | Raise _ => code
               end +:+ "?>"
          else match remove_comments_and_docstrings im code lang with
               | Ok code' => code'
               | Raise _ => code
               end) ->
  (forall e,
      parser_0 parser text = Raise e ->
      extract_dataflow im code parser lang
      = Raise (UnboundLocalError "code_tokens"))
  /\ (forall tree e,
        parser_0 parser text = Ok tree ->
        tree_to_token_index im (root_node im tree) = Raise e ->
        extract_dataflow im code parser lang
        = Raise (UnboundLocalError "code_tokens"))
  /\ (forall tree tokens_index e,
        parser_0 parser text = Ok tree ->
        tree_to_token_index im (root_node im tree) = Ok tokens_index ->
        comprehension
          (fun x => index_to_code_token im x (str_split newline text))
          tokens_index = Raise e ->
        extract_dataflow im code parser lang
        = Raise (UnboundLocalError "code_tokens"))
  /\ (forall tree tokens_index code_tokens,
        parser_0 parser text = Ok tree ->
        tree_to_token_index im (root_node im tree) = Ok tokens_index ->
        comprehension
          (fun x => index_to_code_token im x (str_split newline text))
          tokens_index = Ok code_tokens ->
        extract_dataflow im code parser lang
        = Ok (code_tokens,
              prune
                match parser_1 parser (root_node im tree)
                        (build_index_to_code tokens_index code_tokens) ∅ with
                | Ok r => fst r
                | Raise _ => []
                end)).
Proof.
  intros ->. rewrite extract_dataflow_on_text.
  split; [|split; [|split]].
  - intros e Hp. apply (return_after_early_failure _ e).
    by apply extract_dataflow_try_parse_raises.
  - intros tree e Hp Hi. apply (return_after_early_failure _ e).
    by eapply extract_dataflow_try_index_raises.
  - intros tree tokens_index e Hp Hi Hc.
    apply (return_after_early_failure _ e).
    by eapply extract_dataflow_try_token_raises.
  - intros tree tokens_index code_tokens Hp Hi Hc.
    apply return_after_completion.
    by apply extract_dataflow_try_completes.
Qed.

(** C7: for the language tag [php], [extract_dataflow] hands to the parser
    the text wrapped in [<?php] and [?>], the stripped source or, when
    stripping raised, the original source: what the parser does on the
    wrapped text decides the outcome, the tokens are sliced from the lines
    of the wrapped text, and the dataflow function gets the tree and the
    tokens of the wrapped text. *)
Theorem php_source_is_wrapped im code parser stripped wrapped :
  stripped = match remove_comments_and_docstrings im code "php" with
             | Ok code' => code'
             | Raise _ => code
             end ->
  wrapped = "<?php" +:+ stripped +:+ "?>" ->
  (forall e,
      parser_0 parser wrapped = Raise e ->
      extract_dataflow im code parser "php"
      = Raise (UnboundLocalError "code_tokens"))
  /\ (forall tree e,
        parser_0 parser wrapped = Ok tree ->
        tree_to_token_index im (root_node im tree) = Raise e ->
        extract_dataflow im code parser "php"
        = Raise (UnboundLocalError "code_tokens"))
  /\ (forall tree tokens_index e,
        parser_0 parser wrapped = Ok tree ->
        tree_to_token_index im (root_node im tree) = Ok tokens_index ->
        comprehension
          (fun x => index_to_code_token im x (str_split newline wrapped))
          tokens_index = Raise e ->
        extract_dataflow im code parser "php"
        = Raise (UnboundLocalError "code_tokens"))
  /\ (forall tree tokens_index code_tokens,
        parser_0 parser wrapped = Ok tree ->
        tree_to_token_index im (root_node im tree) = Ok tokens_index ->
        comprehension
          (fun x => index_to_code_token im x (str_split newline wrapped))
          tokens_index = Ok code_tokens ->
        extract_dataflow im code parser "php"
        = Ok (code_tokens,
              prune
                match parser_1 parser (root_node im tree)
                        (build_index_to_code tokens_index code_tokens) ∅ with
                | Ok r => fst r
                | Raise _ => []
                end)).
Proof.
  intros -> ->.
  by apply (extract_dataflow_decided_on_text im code parser "php").
Qed.

(** C8: when comment stripping raises, [extract_dataflow] goes on with the
    original source (wrapped, for [php]): what the parser does on it decides
    the outcome, the tokens are sliced from its lines, and the exception of
    the stripping step does not reach the result, which is that of a run
    whose stripping step returns the source unchanged. *)
Theorem stripping_failure_keeps_source im code parser lang e text :
  remove_comments_and_docstrings im code lang = Raise e ->
  text = (if String.eqb lang "php" then "<?php" +:+ code +:+ "?>" else code) ->
  (forall e,
      parser_0 parser text = Raise e ->
      extract_dataflow im code parser lang
      = Raise (UnboundLocalError "code_tokens"))
  /\ (forall tree e,
        parser_0 parser text = Ok tree ->
        tree_to_token_index im (root_node im tree) = Raise e ->
        extract_dataflow im code parser lang
        = Raise (UnboundLocalError "code_tokens"))
  /\ (forall tree tokens_index e,
        parser_0 parser text = Ok tree ->
        tree_to_token_index im (root_node im tree) = Ok tokens_index ->
        comprehension
          (fun x => index_to_code_token im x (str_split newline text))
          tokens_index = Raise e ->
        extract_dataflow im code parser lang
        = Raise (UnboundLocalError "code_tokens"))
  /\ (forall tree tokens_index code_tokens,
        parser_0 parser text = Ok tree ->
        tree_to_token_index im (root_node im tree) = Ok tokens_index ->
        comprehension
          (fun x => index_to_code_token im x (str_split newline text))
          tokens_index = Ok code_tokens ->
        extract_dataflow im code parser lang
        = Ok (code_tokens,
              prune
                match parser_1 parser (root_node im tree)
                        (build_index_to_code tokens_index code_tokens) ∅ with
                | Ok r => fst r
                | Raise _ => []
                end))
  /\ extract_dataflow im code parser lang
     = extract_dataflow (without_stripping im) code parser lang.
Proof.
  intros He ->.
  assert (Hrun : extract_dataflow im code parser lang
                 = extract_dataflow (without_stripping im) code parser lang).
  { rewrite !extract_dataflow_on_text. by rewrite He. }
  destruct (extract_dataflow_decided_on_text im code parser lang
              (if String.eqb lang "php" then "<?php" +:+ code +:+ "?>" else code))
    as (H1 & H2 & H3 & H4); [by rewrite He|].
  by repeat split.
Qed.

(** C9: when the text is parsed and its tokens are extracted, and the
    dataflow function of the language raises, [extract_dataflow] returns
    all the code tokens together with the empty graph. *)
Theorem analysis_failure_gives_empty_graph
    im code parser lang stripped text tree tokens_index code_tokens e :
  stripped = match remove_comments_and_docstrings im code lang with
             | Ok code' => code'
             | Raise _ => code
             end ->
  text = (if String.eqb lang "php" then "<?php" +:+ stripped +:+ "?>"
          else stripped) ->
  parser_0 parser text = Ok tree ->
  tree_to_token_index im (root_node im tree) = Ok tokens_index ->
  comprehension (fun x => index_to_code_token im x (str_split newline text))
    tokens_index = Ok code_tokens ->
  parser_1 parser (root_node im tree)
    (build_index_to_code tokens_index code_tokens) ∅ = Raise e ->
  extract_dataflow im code parser lang = Ok (code_tokens, []).
Proof.
  intros -> -> Hp Hi Hc Hd. rewrite extract_dataflow_on_text.
  apply return_after_completion.
  destruct (String.eqb lang "php");
    by rewrite (extract_dataflow_try_completes _ _ _ _ _ _ _ Hp Hi Hc), Hd.
Qed.

(** The same happens when the text is parsed but the extraction of the
    tokens raises: [code_tokens] is not yet assigned either. *)
Lemma extract_dataflow_token_failure_raises
    im code parser lang stripped text tree e :
  stripped = match remove_comments_and_docstrings im code lang with
             | Ok code' => code'
             | Raise _ => code
             end ->
  text = (if String.eqb lang "php" then "<?php" +:+ stripped +:+ "?>"
          else stripped) ->
  parser_0 parser text = Ok tree ->
  (tree_to_token_index im (root_node im tree) = Raise e
   \/ exists tokens_index,
        tree_to_token_index im (root_node im tree) = Ok tokens_index
        /\ comprehension
             (fun x => index_to_code_token im x (str_split newline text))
             tokens_index = Raise e) ->
  extract_dataflow im code parser lang = Raise (UnboundLocalError "code_tokens").
Proof.
  intros -> -> Hp Hfail. rewrite extract_dataflow_on_text.
  apply (return_after_early_failure _ e).
  destruct (String.eqb lang "php");
    destruct Hfail as [Hi|(tokens_index & Hi & Hc)];
    eauto using extract_dataflow_try_index_raises,
      extract_dataflow_try_token_raises.
Qed.
End ExtractClaims.

(** ** Truncation, wrapping and padding *)

Lemma length_slice_to {A} (l : list A) (n : Z) :
  0 <= n -> Z.of_nat (length (slice_to l n)) = Z.min n (Z.of_nat (length l)).
Proof.
  intros Hn. unfold slice_to.
  destruct (Z.leb_spec 0 n); [|lia]. rewrite length_take. lia.
Qed.

Lemma slice_to_take {A} (l : list A) (n : Z) :
  0 <= n -> slice_to l n = take (Z.to_nat n) l.
Proof. intros Hn. unfold slice_to. by destruct (Z.leb_spec 0 n); [|lia]. Qed.

Lemma length_list_repeat {A} (x : A) (n : Z) :
  Z.of_nat (length (list_repeat x n)) = Z.max 0 n.
Proof. unfold list_repeat. rewrite length_replicate. lia. Qed.

(** Wrapping a sequence truncated to [n - 2] gives at most [n] pieces. *)
Lemma length_wrapped {A} (cls sep : A) (l : list A) (n : Z) :
  2 <= n ->
  2 <= Z.of_nat (length ([cls] ++ slice_to l (n - 2) ++ [sep])) <= n.
Proof.
  intros Hn. rewrite !length_app. simpl.
  pose proof (length_slice_to l (n - 2)). lia.
Qed.

(** Padding a sequence of at most [n] ids gives exactly [n] ids. *)
Lemma length_padded (ids : list Z) (pad n : Z) :
  Z.of_nat (length ids) <= n ->
  Z.of_nat (length (ids ++ list_repeat pad (n - Z.of_nat (length ids)))) = n.
Proof.
  intros Hn. rewrite length_app, Nat2Z.inj_add, length_list_repeat. lia.
Qed.

(** ** [convert_examples_to_features] *)

Section ConvertClaims.
Context {Tree Node Span States : Type}.
Context `{Countable Span} `{Empty States}.
Implicit Types (im : imports (Tree:=Tree) (Node:=Node) (Span:=Span) (States:=States)).
Implicit Types (parser : parser_entry (Tree:=Tree) (Node:=Node) (Span:=Span) (States:=States)).

(** C2, amended: when the tokenizer gives one id per piece, both
    configured lengths are at least 2 and [extract_dataflow] returns,
    [convert_examples_to_features] returns an example whose [code_ids]
    has [code_length] entries and whose [nl_ids] has [nl_length] entries;
    on each side the pieces are truncated to the length minus 2, wrapped
    in the [cls] and [sep] tokens, converted and padded on the right with
    the pad id. *)
Theorem convert_examples_to_features_fixed_length
    im js tok a parser code_tokens dfg :
  (forall pieces : list string,
      length (tokenizer.convert_tokens_to_ids tok pieces) = length pieces) ->
  2 <= args.code_length a ->
  2 <= args.nl_length a ->
  parsers_getitem im (args.lang a) = Ok parser ->
  extract_dataflow im (js.original_string js) parser (args.lang a)
  = Ok (code_tokens, dfg) ->
  exists ex,
    convert_examples_to_features im (js, tok, a) = Ok ex
    /\ Z.of_nat (length (InputFeatures.code_ids ex)) = args.code_length a
    /\ Z.of_nat (length (InputFeatures.nl_ids ex)) = args.nl_length a
    /\ (exists pieces,
          InputFeatures.code_tokens ex
          = ([tokenizer.cls_token tok]
               ++ take (Z.to_nat (args.code_length a - 2)) pieces
               ++ [tokenizer.sep_token tok])%list)
    /\ InputFeatures.nl_tokens ex
       = ([tokenizer.cls_token tok]
            ++ take (Z.to_nat (args.nl_length a - 2))
                 (tokenizer.tokenize tok (str_join " " (js.docstring_tokens js)))
            ++ [tokenizer.sep_token tok])%list
    /\ InputFeatures.code_ids ex
       = (tokenizer.convert_tokens_to_ids tok (InputFeatures.code_tokens ex)
            ++ replicate
                 (Z.to_nat (args.code_length a
                            - Z.of_nat (length (InputFeatures.code_tokens ex))))
                 (tokenizer.pad_token_id tok))%list
    /\ InputFeatures.nl_ids ex
       = (tokenizer.convert_tokens_to_ids tok (InputFeatures.nl_tokens ex)
            ++ replicate
                 (Z.to_nat (args.nl_length a
                            - Z.of_nat (length (InputFeatures.nl_tokens ex))))
                 (tokenizer.pad_token_id tok))%list.
Proof.
  intros Hids Hcode Hnl Hp He.
  unfold convert_examples_to_features. rewrite Hp. simpl. rewrite He. simpl.
  eexists. split; [reflexivity|]. simpl.
  split; [|split; [|split; [|split; [|split]]]].
  - apply length_padded. rewrite Hids. by apply length_wrapped.
  - apply length_padded. rewrite Hids. by apply length_wrapped.
  - eexists. rewrite slice_to_take by lia. reflexivity.
  - rewrite slice_to_take by lia. reflexivity.
  - unfold list_repeat. by rewrite Hids.
  - unfold list_repeat. by rewrite Hids.
Qed.

(** C6: the example does not depend on the dataflow graph: two runs, on
    the same record, tokenizer and configuration, in which
    [extract_dataflow] returns the same code tokens return the same
    example, whatever the two graphs are. *)
Theorem example_ignores_dataflow_graph
    im1 im2 js tok a parser1 parser2 code_tokens dfg1 dfg2 :
  parsers_getitem im1 (args.lang a) = Ok parser1 ->
  parsers_getitem im2 (args.lang a) = Ok parser2 ->
  extract_dataflow im1 (js.original_string js) parser1 (args.lang a)
  = Ok (code_tokens, dfg1) ->
  extract_dataflow im2 (js.original_string js) parser2 (args.lang a)
  = Ok (code_tokens, dfg2) ->
  exists ex,
    convert_examples_to_features im1 (js, tok, a) = Ok ex
    /\ convert_examples_to_features im2 (js, tok, a) = Ok ex.
Proof.
  intros Hp1 Hp2 He1 He2. unfold convert_examples_to_features.
  rewrite Hp1, Hp2. simpl. rewrite He1, He2. simpl.
  eexists. split; reflexivity.
Qed.

(** C10: the code side of the outcome is the same for two records with
    the same [original_string], and the text side of two returned
    examples is the same for two records with the same
    [docstring_tokens] (tokenizer and configuration being the same). *)
Theorem code_and_text_sides_independent im tok a js1 js2 :
  (js.original_string js1 = js.original_string js2 ->
   result_map (fun ex => (InputFeatures.code_tokens ex, InputFeatures.code_ids ex))
     (convert_examples_to_features im (js1, tok, a))
   = result_map (fun ex => (InputFeatures.code_tokens ex, InputFeatures.code_ids ex))
       (convert_examples_to_features im (js2, tok, a)))
  /\ (js.docstring_tokens js1 = js.docstring_tokens js2 ->
      forall ex1 ex2,
        convert_examples_to_features im (js1, tok, a) = Ok ex1 ->
        convert_examples_to_features im (js2, tok, a) = Ok ex2 ->
        InputFeatures.nl_tokens ex1 = InputFeatures.nl_tokens ex2
        /\ InputFeatures.nl_ids ex1 = InputFeatures.nl_ids ex2).
Proof.
  unfold convert_examples_to_features. split.
  - intros <-.
    destruct (parsers_getitem im (args.lang a)) as [parser|e]; [|done].
    simpl.
    by destruct (extract_dataflow im _ parser _) as [[code_tokens dfg]|e].
  - intros Hdoc ex1 ex2.
    destruct (parsers_getitem im (args.lang a)) as [parser|e]; [|done].
    simpl.
    destruct (extract_dataflow im (js.original_string js1) parser _)
      as [[code_tokens1 dfg1]|e1]; [|done].
    destruct (extract_dataflow im (js.original_string js2) parser _)
      as [[code_tokens2 dfg2]|e2]; [|done].
    simpl. rewrite Hdoc. intros [= <-] [= <-]. by simpl.
Qed.
End ConvertClaims.

(** ** The theorems at the instance of [Fixture] *)

Lemma extract_dataflow_parse_failure_raises_witness :
  Fixture.parse_fails Fixture.two_lines = Raise (Exception "UnicodeEncodeError")
  /\ extract_dataflow Fixture.im_parse_fails Fixture.two_lines
       (Fixture.entry Fixture.parse_fails (Fixture.dfg_const Fixture.redefined))
       "java"
     = Raise (UnboundLocalError "code_tokens").
Proof.
  split; [reflexivity|].
  apply (extract_dataflow_parse_failure_raises Fixture.im_parse_fails
           Fixture.two_lines _ "java" Fixture.two_lines Fixture.two_lines
           (Exception "UnicodeEncodeError")); reflexivity.
Defined.

Lemma php_source_is_wrapped_witness :
  extract_dataflow
    (Fixture.line_imports (fun _ _ => Ok "y = 2") Fixture.parse_lines
       Fixture.dfg_fails)
    Fixture.two_lines
    (Fixture.entry Fixture.parse_lines Fixture.dfg_fails) "php"
  = Ok (["<?phpy = 2?>"], prune [])
  /\ extract_dataflow Fixture.im_strip_fails Fixture.two_lines
       (Fixture.entry Fixture.parse_lines
          (Fixture.dfg_const Fixture.redefined)) "php"
     = Ok (["<?phpx = 1"; "y = x?>"], prune Fixture.redefined)
  /\ extract_dataflow Fixture.im_strip_fails Fixture.two_lines
       (Fixture.entry
          (fun text =>
             if String.prefix "<?php" text
             then Raise (Exception "SyntaxError") else Ok [])
          Fixture.dfg_fails) "php"
     = Raise (UnboundLocalError "code_tokens").
Proof.
  split; [|split].
  - apply (proj2 (proj2 (proj2
             (php_source_is_wrapped
                (Fixture.line_imports (fun _ _ => Ok "y = 2")
                   Fixture.parse_lines Fixture.dfg_fails)
                Fixture.two_lines
                (Fixture.entry Fixture.parse_lines Fixture.dfg_fails)
                "y = 2" "<?phpy = 2?>" eq_refl eq_refl)))
             ["<?phpy = 2?>"] [0%nat] ["<?phpy = 2?>"]); reflexivity.
  - apply (proj2 (proj2 (proj2
             (php_source_is_wrapped Fixture.im_strip_fails Fixture.two_lines
                (Fixture.entry Fixture.parse_lines
                   (Fixture.dfg_const Fixture.redefined))
                Fixture.two_lines ("<?php" +:+ Fixture.two_lines +:+ "?>")
                eq_refl eq_refl)))
             ["<?phpx = 1"; "y = x?>"] [0%nat; 1%nat]
             ["<?phpx = 1"; "y = x?>"]); reflexivity.
  - apply (proj1
             (php_source_is_wrapped Fixture.im_strip_fails Fixture.two_lines
                (Fixture.entry
                   (fun text =>
                      if String.prefix "<?php" text
                      then Raise (Exception "SyntaxError") else Ok [])
                   Fixture.dfg_fails)
                Fixture.two_lines ("<?php" +:+ Fixture.two_lines +:+ "?>")
                eq_refl eq_refl)
             (Exception "SyntaxError")); reflexivity.
Defined.

Lemma stripping_failure_keeps_source_witness :
  Fixture.strip_fails Fixture.two_lines "python"
  = Raise (Exception "tokenize.TokenError")
  /\ extract_dataflow Fixture.im_strip_fails Fixture.two_lines
       (Fixture.entry Fixture.parse_lines (Fixture.dfg_const Fixture.redefined))
       "python"
     = Ok (["x = 1"; "y = x"], prune Fixture.redefined)
  /\ extract_dataflow Fixture.im_strip_fails Fixture.two_lines
       (Fixture.entry Fixture.parse_lines (Fixture.dfg_const Fixture.redefined))
       "python"
     = extract_dataflow (without_stripping Fixture.im_strip_fails)
         Fixture.two_lines
         (Fixture.entry Fixture.parse_lines (Fixture.dfg_const Fixture.redefined))
         "python".
Proof.
  split; [reflexivity|].
  destruct (stripping_failure_keeps_source Fixture.im_strip_fails
              Fixture.two_lines
              (Fixture.entry Fixture.parse_lines
                 (Fixture.dfg_const Fixture.redefined))
              "python" (Exception "tokenize.TokenError") Fixture.two_lines
              eq_refl eq_refl) as (_ & _ & _ & Hok & Hrun).
  split; [|exact Hrun].
  apply (Hok ["x = 1"; "y = x"] [0%nat; 1%nat] ["x = 1"; "y = x"]); reflexivity.
Defined.

Lemma analysis_failure_gives_empty_graph_witness :
  Fixture.dfg_fails (str_split newline Fixture.two_lines)
    (build_index_to_code [0%nat; 1%nat] ["x = 1"; "y = x"]) ∅
  = Raise (Exception "RecursionError")
  /\ extract_dataflow Fixture.im_dfg_fails Fixture.two_lines
       (Fixture.entry Fixture.parse_lines Fixture.dfg_fails) "java"
     = Ok (["x = 1"; "y = x"], []).
Proof.
  split; [reflexivity|].
  apply (analysis_failure_gives_empty_graph Fixture.im_dfg_fails
           Fixture.two_lines
           (Fixture.entry Fixture.parse_lines Fixture.dfg_fails) "java"
           Fixture.two_lines Fixture.two_lines
           (str_split newline Fixture.two_lines) [0%nat; 1%nat]
           ["x = 1"; "y = x"] (Exception "RecursionError")); reflexivity.
Defined.

(** Counterexample to C2 as stated: with [code_length = 1] and
    [nl_length = 0] the truncation bounds are negative, so the slices drop
    one and two pieces from the end; the two sentinels are added all the
    same and nothing is padded.  The six code pieces give seven ids and the
    two text pieces give two. *)
Lemma short_lengths_are_exceeded :
  (forall pieces : list string,
      length (tokenizer.convert_tokens_to_ids Fixture.space_tokenizer pieces)
      = length pieces)
  /\ exists ex,
       convert_examples_to_features Fixture.im_ok
         (Fixture.record Fixture.two_lines ["the"; "sum"],
          Fixture.space_tokenizer, args.mk "java" 1 0)
       = Ok ex
       /\ InputFeatures.code_ids ex = [3; 1; 1; 1; 1; 1; 4]
       /\ InputFeatures.nl_ids ex = [3; 4]
       /\ Z.of_nat (length (InputFeatures.code_ids ex)) <> 1
       /\ Z.of_nat (length (InputFeatures.nl_ids ex)) <> 0.
Proof.
  split.
  - intros pieces. apply length_fmap.
  - eexists. split; [by vm_compute|]. simpl. repeat split; lia.
Qed.

Lemma convert_examples_to_features_fixed_length_witness :
  exists ex,
    convert_examples_to_features Fixture.im_ok
      (Fixture.record Fixture.two_lines ["the"; "sum"],
       Fixture.space_tokenizer, args.mk "java" 6 8)
    = Ok ex
    /\ Z.of_nat (length (InputFeatures.code_ids ex)) = 6
    /\ Z.of_nat (length (InputFeatures.nl_ids ex)) = 8.
Proof.
  destruct (convert_examples_to_features_fixed_length Fixture.im_ok
              (Fixture.record Fixture.two_lines ["the"; "sum"])
              Fixture.space_tokenizer (args.mk "java" 6 8)
              (Fixture.entry Fixture.parse_lines
                 (Fixture.dfg_const Fixture.redefined))
              ["x = 1"; "y = x"] Fixture.redefined)
    as (ex & Hex & Hcode & Hnl & _).
  - intros pieces. apply length_fmap.
  - simpl. lia.
  - simpl. lia.
  - vm_compute. reflexivity.
  - vm_compute. reflexivity.
  - exists ex. split; [exact Hex|]. split; [exact Hcode|exact Hnl].
Defined.

Lemma example_ignores_dataflow_graph_witness :
  exists ex,
    convert_examples_to_features Fixture.im_ok
      (Fixture.record Fixture.two_lines ["the"; "sum"],
       Fixture.space_tokenizer, args.mk "java" 6 8) = Ok ex
    /\ convert_examples_to_features Fixture.im_dfg_fails
         (Fixture.record Fixture.two_lines ["the"; "sum"],
          Fixture.space_tokenizer, args.mk "java" 6 8) = Ok ex.
Proof.
  apply (example_ignores_dataflow_graph Fixture.im_ok Fixture.im_dfg_fails
           (Fixture.record Fixture.two_lines ["the"; "sum"])
           Fixture.space_tokenizer (args.mk "java" 6 8)
           (Fixture.entry Fixture.parse_lines
              (Fixture.dfg_const Fixture.redefined))
           (Fixture.entry Fixture.parse_lines Fixture.dfg_fails)
           ["x = 1"; "y = x"] Fixture.redefined []);
    vm_compute; reflexivity.
Defined.

Lemma code_and_text_sides_independent_witness :
  result_map (fun ex => (InputFeatures.code_tokens ex, InputFeatures.code_ids ex))
    (convert_examples_to_features Fixture.im_ok
       (Fixture.record Fixture.two_lines ["the"; "sum"],
        Fixture.space_tokenizer, args.mk "java" 6 8))
  = result_map (fun ex => (InputFeatures.code_tokens ex, InputFeatures.code_ids ex))
      (convert_examples_to_features Fixture.im_ok
         (Fixture.record Fixture.two_lines ["a"; "product"],
          Fixture.space_tokenizer, args.mk "java" 6 8))
  /\ forall ex1 ex2,
       convert_examples_to_features Fixture.im_ok
         (Fixture.record Fixture.two_lines ["the"; "sum"],
          Fixture.space_tokenizer, args.mk "java" 6 8) = Ok ex1 ->
       convert_examples_to_features Fixture.im_ok
         (Fixture.record "return 0" ["the"; "sum"],
          Fixture.space_tokenizer, args.mk "java" 6 8) = Ok ex2 ->
       InputFeatures.nl_tokens ex1 = InputFeatures.nl_tokens ex2
       /\ InputFeatures.nl_ids ex1 = InputFeatures.nl_ids ex2.
Proof.
  split.
  - apply (proj1 (code_and_text_sides_independent Fixture.im_ok
                    Fixture.space_tokenizer (args.mk "java" 6 8)
                    (Fixture.record Fixture.two_lines ["the"; "sum"])
                    (Fixture.record Fixture.two_lines ["a"; "product"]))).
    reflexivity.
  - apply (proj2 (code_and_text_sides_independent Fixture.im_ok
                    Fixture.space_tokenizer (args.mk "java" 6 8)
                    (Fixture.record Fixture.two_lines ["the"; "sum"])
                    (Fixture.record "return 0" ["the"; "sum"]))).
    reflexivity.
Defined.

(** * Further properties of the pipeline *)

(** ** The pruner *)

(** The pruned graph is empty exactly when no edge has a source. *)
Theorem prune_empty_iff (DFG : list DataflowEdge) :
  prune DFG = [] <-> forall d, d ∈ DFG -> source_indices d = [].
Proof.
  split.
  - intros Hnil d Hd. destruct (source_indices d) as [|x xs] eqn:Hsrc; [done|].
    assert (Hin : d ∈ prune DFG).
    { apply prune_keeps_sourced; [done|]. by rewrite Hsrc. }
    rewrite Hnil in Hin. by apply elem_of_nil in Hin.
  - intros Hall. destruct (prune DFG) as [|d l] eqn:Hp; [done|].
    assert (Hd : d ∈ prune DFG) by (rewrite Hp; left).
    apply elem_of_prune in Hd as [_ Hd].
    apply elem_of_collect_indexs in Hd as (e & He & Hcase).
    pose proof (Hall e He) as Hsrc. rewrite Hsrc in Hcase.
    destruct Hcase as [[? _]|Hin]; [done|]. by apply elem_of_nil in Hin.
Qed.

(** What the pruner never removes: an edge that has sources, and an edge
    whose target some edge of the input lists among its sources. *)
Theorem prune_keeps_flow_edges (DFG : list DataflowEdge) (d : DataflowEdge) :
  d ∈ DFG ->
  (source_indices d <> []
   \/ exists e, e ∈ DFG /\ target_index d ∈ source_indices e) ->
  d ∈ prune DFG.
Proof.
  intros Hd Hcase. apply elem_of_prune. split; [done|].
  apply elem_of_collect_indexs.
  destruct Hcase as [Hne|(e & He & Hin)]; [exists d|exists e]; auto.
Qed.

Lemma prune_keeps_flow_edges_witness :
  mkEdge "x" 1 "comesFrom" [] ∈
    [mkEdge "x" 1 "comesFrom" []; mkEdge "y" 4 "computedFrom" [1]]
  /\ mkEdge "x" 1 "comesFrom" [] ∈
       prune [mkEdge "x" 1 "comesFrom" []; mkEdge "y" 4 "computedFrom" [1]].
Proof.
  split; [apply list_elem_of_here|].
  apply (prune_keeps_flow_edges
           [mkEdge "x" 1 "comesFrom" []; mkEdge "y" 4 "computedFrom" [1]]
           (mkEdge "x" 1 "comesFrom" [])).
  - apply list_elem_of_here.
  - right. exists (mkEdge "y" 4 "computedFrom" [1]). split.
    + apply list_elem_of_further, list_elem_of_here.
    + apply list_elem_of_here.
Defined.

(** ** [extract_dataflow] *)

Section ExtractOutcomes.
Context {Tree Node Span States : Type}.
Context `{Countable Span} `{Empty States}.
Implicit Types (im : imports (Tree:=Tree) (Node:=Node) (Span:=Span) (States:=States)).
Implicit Types (parser : parser_entry (Tree:=Tree) (Node:=Node) (Span:=Span) (States:=States)).

(** The frame and outcome of the outer [try] body, in all cases. *)
Lemma extract_dataflow_try_cases im text parser :
  (exists e, extract_dataflow_try im text parser unbound = (unbound, Raise e))
  \/ (exists code_tokens DFG,
        extract_dataflow_try im text parser unbound
        = (mkLocals (Some code_tokens) (Some (prune DFG)), Ok tt)).
Proof.
  destruct (parser_0 parser text) as [tree|e] eqn:Hp.
  2: { left. exists e. by apply extract_dataflow_try_parse_raises. }
  destruct (tree_to_token_index im (root_node im tree)) as [tokens_index|e] eqn:Hi.
  2: { left. exists e. by eapply extract_dataflow_try_index_raises. }
  destruct (comprehension
              (fun x => index_to_code_token im x (str_split newline text))
              tokens_index) as [code_tokens|e] eqn:Hc.
  2: { left. exists e. by eapply extract_dataflow_try_token_raises. }
  right. eexists _, _. by eapply extract_dataflow_try_completes.
Qed.

Lemma extract_dataflow_cases im code parser lang :
  extract_dataflow im code parser lang = Raise (UnboundLocalError "code_tokens")
  \/ exists code_tokens DFG,
       extract_dataflow im code parser lang = Ok (code_tokens, prune DFG).
Proof.
  rewrite extract_dataflow_on_text.
  match goal with
  | |- context [extract_dataflow_try im ?text parser] =>
      destruct (extract_dataflow_try_cases im text parser)
        as [[e He]|(code_tokens & DFG & Hok)]
  end.
  - left. by apply (return_after_early_failure _ e).
  - right. exists code_tokens, DFG. by apply return_after_completion.
Qed.

(** No exception of the imported functions leaves [extract_dataflow]: it
    returns, or it raises [UnboundLocalError] for [code_tokens]. *)
Theorem extract_dataflow_outcomes im code parser lang :
  (exists code_tokens dfg,
      extract_dataflow im code parser lang = Ok (code_tokens, dfg))
  \/ extract_dataflow im code parser lang = Raise (UnboundLocalError "code_tokens").
Proof.
  destruct (extract_dataflow_cases im code parser lang)
    as [Hr|(code_tokens & DFG & Hok)]; [by right|].
  left. by exists code_tokens, (prune DFG).
Qed.

(** A returned graph is in ascending order of [target_index], and the
    target of each of its edges is the target of one of its edges with
    sources or a source of one of its edges. *)
Theorem extract_dataflow_graph_invariant im code parser lang code_tokens dfg :
  extract_dataflow im code parser lang = Ok (code_tokens, dfg) ->
  Sorted (key_le target_index) dfg
  /\ forall d, d ∈ dfg ->
       exists e, e ∈ dfg /\
         ((source_indices e <> [] /\ target_index e = target_index d)
          \/ target_index d ∈ source_indices e).
Proof.
  intros Hret.
  destruct (extract_dataflow_cases im code parser lang)
    as [Hr|(code_tokens' & DFG & Hok)]; [congruence|].
  rewrite Hok in Hret. injection Hret as _ <-. split.
  - rewrite prune_filter. apply Sorted_filter, sorted_Sorted.
  - intros d [_ Hd]%elem_of_prune.
    rewrite <- collect_indexs_prune in Hd.
    by apply elem_of_collect_indexs in Hd.
Qed.
End ExtractOutcomes.

Lemma extract_dataflow_graph_invariant_witness :
  Sorted (key_le target_index) Fixture.redefined
  /\ forall d, d ∈ Fixture.redefined ->
       exists e, e ∈ Fixture.redefined /\
         ((source_indices e <> [] /\ target_index e = target_index d)
          \/ target_index d ∈ source_indices e).
Proof.
  apply (extract_dataflow_graph_invariant Fixture.im_ok Fixture.two_lines
           (Fixture.entry Fixture.parse_lines
              (Fixture.dfg_const Fixture.redefined))
           "java" ["x = 1"; "y = x"] Fixture.redefined).
  vm_compute. reflexivity.
Defined.

(** ** The table [parsers] and [index_to_code] *)

Section TableFacts.
Context {Tree Node Span States : Type}.
Context `{Countable Span} `{Empty States}.
Implicit Types (im : imports (Tree:=Tree) (Node:=Node) (Span:=Span) (States:=States)).

Lemma parsers_getitem_unsupported im lang :
  lang ∉ ["python"; "java"; "ruby"; "go"; "php"; "javascript"] ->
  parsers_getitem im lang = Raise (KeyError lang).
Proof.
  intros Hl. unfold parsers_getitem, parsers, dfg_function. simpl.
  rewrite !lookup_insert_ne, lookup_empty; [done|..];
    intros <-; apply Hl; set_solver.
Qed.

Lemma parsers_getitem_supported im lang :
  lang ∈ ["python"; "java"; "ruby"; "go"; "php"; "javascript"] ->
  exists dfg, (lang, dfg) ∈ dfg_function im
    /\ parsers_getitem im lang = Ok (mkEntry (Parser_parse im lang) dfg).
Proof.
  intros Hl. unfold parsers_getitem, parsers, dfg_function.
  repeat (apply elem_of_cons in Hl as [->|Hl]);
    [..|by apply elem_of_nil in Hl];
    eexists; (split; [|by simplify_map_eq]); set_solver.
Qed.

(** [parsers] has an entry for each of the six language tags, made of the
    parser of that language and of a dataflow function that [dfg_function]
    gives for the same tag; looking up any other tag raises [KeyError]. *)
Theorem parsers_getitem_spec im (lang : string) :
  (lang ∈ ["python"; "java"; "ruby"; "go"; "php"; "javascript"] ->
   exists dfg, (lang, dfg) ∈ dfg_function im
     /\ parsers_getitem im lang = Ok (mkEntry (Parser_parse im lang) dfg))
  /\ (lang ∉ ["python"; "java"; "ruby"; "go"; "php"; "javascript"] ->
      parsers_getitem im lang = Raise (KeyError lang))
  /\ parsers_getitem im "php"
     = Ok (mkEntry (Parser_parse im "php") (DFG_php im)).
Proof.
  split; [apply parsers_getitem_supported|].
  split; [apply parsers_getitem_unsupported|].
  unfold parsers_getitem, parsers, dfg_function. by simplify_map_eq.
Qed.

(** Filling [index_to_code] from numbered pairs, starting at number [n]. *)
Lemma index_to_code_untouched (l : list (Span * string)) (n : nat)
    (m : gmap Span (nat * string)) (sp : Span) :
  sp ∉ l.*1 ->
  foldl (fun index_to_code '(idx, (index, code)) =>
           <[index := (idx, code)]> index_to_code)
        m (imap (fun i x => ((n + i)%nat, x)) l) !! sp
  = m !! sp.
Proof.
  revert n m. induction l as [|[sp' t'] l IH]; intros n m Hsp; [done|].
  rewrite imap_cons. simpl.
  rewrite (imap_ext _ (fun i x => ((S n + i)%nat, x))).
  2: { intros i x _. simpl. f_equal. lia. }
  rewrite IH by set_solver. rewrite lookup_insert_ne; [done|]. set_solver.
Qed.

Lemma index_to_code_filled (l : list (Span * string)) (n k : nat)
    (m : gmap Span (nat * string)) (sp : Span) (t : string) :
  NoDup l.*1 -> l !! k = Some (sp, t) ->
  foldl (fun index_to_code '(idx, (index, code)) =>
           <[index := (idx, code)]> index_to_code)
        m (imap (fun i x => ((n + i)%nat, x)) l) !! sp
  = Some ((n + k)%nat, t).
Proof.
  revert n k m. induction l as [|[sp' t'] l IH]; intros n k m Hnd Hk; [done|].
  rewrite imap_cons. simpl.
  rewrite (imap_ext _ (fun i x => ((S n + i)%nat, x))).
  2: { intros i x _. simpl. f_equal. lia. }
  apply NoDup_cons in Hnd as [Hnotin Hnd].
  destruct k as [|k]; simpl in Hk.
  - injection Hk as -> ->. rewrite index_to_code_untouched by done.
    by rewrite lookup_insert_eq.
  - rewrite (IH (S n) k) by done. do 2 f_equal. lia.
Qed.

(** When the positions of the leaves are pairwise distinct,
    [index_to_code] maps the position of the [k]-th leaf to [k] and to the
    text of the [k]-th token. *)
Theorem build_index_to_code_lookup (tokens_index : list Span)
    (code_tokens : list string) (k : nat) (sp : Span) (t : string) :
  NoDup tokens_index ->
  tokens_index !! k = Some sp ->
  code_tokens !! k = Some t ->
  build_index_to_code tokens_index code_tokens !! sp = Some (k, t).
Proof.
  intros Hnd Hsp Ht. unfold build_index_to_code, enumerate.
  apply (index_to_code_filled (zip tokens_index code_tokens) 0 k).
  - eapply sublist_NoDup; [exact Hnd|].
    clear. revert code_tokens.
    induction tokens_index as [|x l IH]; intros [|y k]; simpl;
      try apply sublist_nil_l.
    by apply sublist_skip.
  - apply lookup_zip_with_Some. by exists sp, t.
Qed.
End TableFacts.

Lemma build_index_to_code_lookup_witness :
  NoDup [7%nat; 9%nat]
  /\ build_index_to_code [7%nat; 9%nat] ["x"; "y"] !! 9%nat = Some (1%nat, "y").
Proof.
  assert (Hnd : NoDup [7%nat; 9%nat]).
  { apply (bool_decide_unpack (NoDup [7%nat; 9%nat])). exact I. }
  split; [exact Hnd|].
  apply (build_index_to_code_lookup [7%nat; 9%nat] ["x"; "y"] 1 9%nat "y" Hnd);
    reflexivity.
Defined.

(** ** [convert_examples_to_features] *)

Section ConvertOutcomes.
Context {Tree Node Span States : Type}.
Context `{Countable Span} `{Empty States}.
Implicit Types (im : imports (Tree:=Tree) (Node:=Node) (Span:=Span) (States:=States)).

(** On a record that has the fields [original_string], [docstring_tokens]
    and [url] (every [js.t] has them), [convert_examples_to_features]
    raises [KeyError] for a language tag outside the six of [parsers]; for
    one of the six it returns an example or raises [UnboundLocalError] for
    [code_tokens], and nothing else. *)
Theorem convert_examples_to_features_outcomes im js tok a :
  (args.lang a ∉ ["python"; "java"; "ruby"; "go"; "php"; "javascript"] ->
   convert_examples_to_features im (js, tok, a) = Raise (KeyError (args.lang a)))
  /\ (args.lang a ∈ ["python"; "java"; "ruby"; "go"; "php"; "javascript"] ->
      (exists ex, convert_examples_to_features im (js, tok, a) = Ok ex)
      \/ convert_examples_to_features im (js, tok, a)
         = Raise (UnboundLocalError "code_tokens")).
Proof.
  unfold convert_examples_to_features. split.
  - intros Hl. by rewrite parsers_getitem_unsupported.
  - intros Hl.
    destruct (parsers_getitem_supported im _ Hl) as (dfg & _ & ->). simpl.
    destruct (extract_dataflow_cases im (js.original_string js)
                (mkEntry (Parser_parse im (args.lang a)) dfg) (args.lang a))
      as [->|(code_tokens & DFG & ->)]; simpl.
    + by right.
    + left. by eexists.
Qed.

(** A configured length below 2 is always exceeded: the two sentinels are
    added whatever the length is. *)
Theorem short_configured_length_is_exceeded im js tok a ex :
  (forall pieces : list string,
      length (tokenizer.convert_tokens_to_ids tok pieces) = length pieces) ->
  convert_examples_to_features im (js, tok, a) = Ok ex ->
  (args.code_length a < 2 ->
   args.code_length a < Z.of_nat (length (InputFeatures.code_ids ex)))
  /\ (args.nl_length a < 2 ->
      args.nl_length a < Z.of_nat (length (InputFeatures.nl_ids ex))).
Proof.
  intros Hids. unfold convert_examples_to_features.
  destruct (parsers_getitem im (args.lang a)) as [parser|e]; [|done]. simpl.
  destruct (extract_dataflow im _ parser _) as [[code_tokens dfg]|e]; [|done].
  simpl. intros [= <-]. simpl.
  split; intros Hlt; rewrite length_app, Hids, length_cons, !length_app;
    cbn [length]; lia.
Qed.

(** When [extract_dataflow] returns no code token, the code side of the
    example is the two sentinels, followed in [code_ids] by
    [code_length - 2] pad ids. *)
Theorem empty_code_gives_sentinels im js tok a parser dfg :
  parsers_getitem im (args.lang a) = Ok parser ->
  extract_dataflow im (js.original_string js) parser (args.lang a) = Ok ([], dfg) ->
  2 <= args.code_length a ->
  length (tokenizer.convert_tokens_to_ids tok
            [tokenizer.cls_token tok; tokenizer.sep_token tok]) = 2%nat ->
  exists ex,
    convert_examples_to_features im (js, tok, a) = Ok ex
    /\ InputFeatures.code_tokens ex
       = [tokenizer.cls_token tok; tokenizer.sep_token tok]
    /\ InputFeatures.code_ids ex
       = (tokenizer.convert_tokens_to_ids tok
            [tokenizer.cls_token tok; tokenizer.sep_token tok]
            ++ replicate (Z.to_nat (args.code_length a - 2))
                 (tokenizer.pad_token_id tok))%list.
Proof.
  intros Hp He Hlen Hids. unfold convert_examples_to_features.
  rewrite Hp. simpl. rewrite He. simpl.
  eexists. split; [reflexivity|]. simpl.
  rewrite slice_to_take by lia. rewrite take_nil. simpl.
  split; [done|]. unfold list_repeat. by rewrite Hids.
Qed.
End ConvertOutcomes.

Lemma convert_examples_to_features_outcomes_witness :
  convert_examples_to_features Fixture.im_ok
    (Fixture.record Fixture.two_lines ["the"; "sum"],
     Fixture.space_tokenizer, args.mk "c" 6 8)
  = Raise (KeyError "c")
  /\ ((exists ex,
         convert_examples_to_features Fixture.im_ok
           (Fixture.record Fixture.two_lines ["the"; "sum"],
            Fixture.space_tokenizer, args.mk "ruby" 6 8) = Ok ex)
      \/ convert_examples_to_features Fixture.im_ok
           (Fixture.record Fixture.two_lines ["the"; "sum"],
            Fixture.space_tokenizer, args.mk "ruby" 6 8)
         = Raise (UnboundLocalError "code_tokens"))
  /\ ((exists ex,
         convert_examples_to_features Fixture.im_parse_fails
           (Fixture.record Fixture.two_lines ["the"; "sum"],
            Fixture.space_tokenizer, args.mk "ruby" 6 8) = Ok ex)
      \/ convert_examples_to_features Fixture.im_parse_fails
           (Fixture.record Fixture.two_lines ["the"; "sum"],
            Fixture.space_tokenizer, args.mk "ruby" 6 8)
         = Raise (UnboundLocalError "code_tokens")).
Proof.
  split; [|split].
  - apply (proj1 (convert_examples_to_features_outcomes Fixture.im_ok
                    (Fixture.record Fixture.two_lines ["the"; "sum"])
                    Fixture.space_tokenizer (args.mk "c" 6 8))).
    apply (bool_decide_unpack
             ("c" ∉ ["python"; "java"; "ruby"; "go"; "php"; "javascript"])).
    exact I.
  - apply (proj2 (convert_examples_to_features_outcomes Fixture.im_ok
                    (Fixture.record Fixture.two_lines ["the"; "sum"])
                    Fixture.space_tokenizer (args.mk "ruby" 6 8))).
    apply (bool_decide_unpack
             ("ruby" ∈ ["python"; "java"; "ruby"; "go"; "php"; "javascript"])).
    exact I.
  - apply (proj2 (convert_examples_to_features_outcomes Fixture.im_parse_fails
                    (Fixture.record Fixture.two_lines ["the"; "sum"])
                    Fixture.space_tokenizer (args.mk "ruby" 6 8))).
    apply (bool_decide_unpack
             ("ruby" ∈ ["python"; "java"; "ruby"; "go"; "php"; "javascript"])).
    exact I.
Defined.

(** The two outcomes for a supported tag both occur. *)
Lemma convert_examples_to_features_both_outcomes :
  (exists ex,
      convert_examples_to_features Fixture.im_ok
        (Fixture.record Fixture.two_lines ["the"; "sum"],
         Fixture.space_tokenizer, args.mk "ruby" 6 8) = Ok ex)
  /\ convert_examples_to_features Fixture.im_parse_fails
       (Fixture.record Fixture.two_lines ["the"; "sum"],
        Fixture.space_tokenizer, args.mk "ruby" 6 8)
     = Raise (UnboundLocalError "code_tokens").
Proof. split; [eexists|]; vm_compute; reflexivity. Qed.

Lemma short_configured_length_is_exceeded_witness :
  exists ex,
    convert_examples_to_features Fixture.im_ok
      (Fixture.record Fixture.two_lines ["the"; "sum"],
       Fixture.space_tokenizer, args.mk "java" 1 (-3)) = Ok ex
    /\ 1 < Z.of_nat (length (InputFeatures.code_ids ex))
    /\ -3 < Z.of_nat (length (InputFeatures.nl_ids ex)).
Proof.
  eexists. split; [vm_compute; reflexivity|].
  destruct (short_configured_length_is_exceeded Fixture.im_ok
              (Fixture.record Fixture.two_lines ["the"; "sum"])
              Fixture.space_tokenizer (args.mk "java" 1 (-3)) _
              (fun pieces => length_fmap _ pieces) eq_refl) as [Hc Hn].
  split; [apply Hc|apply Hn]; reflexivity.
Defined.

Lemma empty_code_gives_sentinels_witness :
  exists ex,
    convert_examples_to_features
      (Fixture.line_imports Fixture.strip_ok (fun _ => Ok [])
         Fixture.dfg_fails)
      (Fixture.record "" ["the"; "sum"],
       Fixture.space_tokenizer, args.mk "java" 4 8) = Ok ex
    /\ InputFeatures.code_tokens ex = ["<s>"; "</s>"]
    /\ InputFeatures.code_ids ex = [3; 4; 1; 1].
Proof.
  apply (empty_code_gives_sentinels
           (Fixture.line_imports Fixture.strip_ok (fun _ => Ok [])
              Fixture.dfg_fails)
           (Fixture.record "" ["the"; "sum"])
           Fixture.space_tokenizer (args.mk "java" 4 8)
           (Fixture.entry (fun _ => Ok []) Fixture.dfg_fails) []).
  - vm_compute. reflexivity.
  - vm_compute. reflexivity.
  - simpl. lia.
  - reflexivity.
Defined.

(** * The dataset *)

(** ** Splitting and slicing strings *)

Lemma str_split_from_nonempty (sep : ascii) (s cur : string) :
  str_split_from sep cur s <> [].
Proof.
  revert cur. induction s as [|c s IH]; intros cur; simpl; [done|].
  destruct (Ascii.eqb c sep); [done|apply IH].
Qed.

Lemma string_app_cons (c : ascii) (s1 s2 : string) :
  String c s1 +:+ s2 = String c (s1 +:+ s2).
Proof. reflexivity. Qed.

Lemma string_app_nil_r (s : string) : s +:+ "" = s.
Proof.
  induction s as [|c s IH]; [done|]. by rewrite string_app_cons, IH.
Qed.

Lemma list_ascii_of_string_app (s1 s2 : string) :
  String.list_ascii_of_string (s1 +:+ s2)
  = (String.list_ascii_of_string s1 ++ String.list_ascii_of_string s2)%list.
Proof.
  induction s1 as [|c s1 IH]; [done|].
  rewrite string_app_cons. simpl. by rewrite IH.
Qed.

Lemma length_list_ascii_of_string (s : string) :
  length (String.list_ascii_of_string s) = String.length s.
Proof. induction s as [|c s IH]; simpl; [done|]. by rewrite IH. Qed.

Lemma string_app_assoc (s1 s2 s3 : string) :
  (s1 +:+ s2) +:+ s3 = s1 +:+ (s2 +:+ s3).
Proof.
  induction s1 as [|c s1 IH]; [done|]. by rewrite !string_app_cons, IH.
Qed.

(** A text without the separator is one field. *)
Lemma str_split_from_no_sep (sep : ascii) (s cur : string) :
  sep ∉ String.list_ascii_of_string s ->
  str_split_from sep cur s = [cur +:+ s].
Proof.
  revert cur. induction s as [|c s IH]; intros cur Hs; simpl.
  - by rewrite string_app_nil_r.
  - simpl in Hs. apply not_elem_of_cons in Hs as [Hc Hs].
    destruct (Ascii.eqb_spec c sep) as [->|_]; [done|].
    rewrite IH by done. by rewrite string_app_assoc.
Qed.

(** The last field of a text starts after its last separator. *)
Lemma last_str_split_from (sep : ascii) (d rest cur : string) :
  last (str_split_from sep cur (d +:+ String sep rest))
  = last (str_split_from sep "" rest).
Proof.
  revert cur. induction d as [|c d IH]; intros cur;
    [change ("" +:+ String sep rest) with (String sep rest)
    |rewrite string_app_cons]; simpl.
  - rewrite Ascii.eqb_refl.
    destruct (str_split_from sep "" rest) as [|x l] eqn:Hsplit; [|done].
    by apply str_split_from_nonempty in Hsplit.
  - destruct (Ascii.eqb c sep); [|apply IH].
    rewrite <- (IH "").
    destruct (str_split_from sep "" (d +:+ String sep rest)) as [|x l] eqn:Hsplit;
      [|done].
    by apply str_split_from_nonempty in Hsplit.
Qed.

Lemma list_getitem_last {A} (l : list A) (x : A) :
  last l = Some x -> list_getitem l (-1) = Ok x.
Proof.
  intros Hlast. rewrite last_lookup in Hlast.
  pose proof (lookup_lt_Some _ _ _ Hlast) as Hlt.
  unfold list_getitem. simpl.
  destruct (Z.leb_spec 0 (-1 + Z.of_nat (length l))); [|lia].
  destruct (Z.ltb_spec (-1 + Z.of_nat (length l)) (Z.of_nat (length l))); [|lia].
  simpl.
  replace (Z.to_nat (-1 + Z.of_nat (length l))) with (pred (length l)) by lia.
  by rewrite Hlast.
Qed.

Lemma str_concat_app (l1 l2 : list string) :
  str_concat (l1 ++ l2) = str_concat l1 +:+ str_concat l2.
Proof.
  induction l1 as [|x l1 IH]; [done|].
  unfold str_concat in *. simpl. by rewrite IH, string_app_assoc.
Qed.

Lemma str_concat_emit (cur : string) : str_concat (str_emit cur) = cur.
Proof.
  destruct cur as [|c cur]; [done|].
  unfold str_concat. simpl. apply string_app_nil_r.
Qed.

(** Putting the characters of a string together gives the string back. *)
Lemma str_concat_chars_from (s cur : string) :
  str_concat (str_chars_from cur s) = cur +:+ s.
Proof.
  revert cur. induction s as [|c s IH]; intros cur; simpl.
  - by rewrite str_concat_emit, string_app_nil_r.
  - destruct (is_continuation c).
    + by rewrite IH, string_app_assoc.
    + by rewrite str_concat_app, str_concat_emit, IH.
Qed.

(** Bytes that are not continuation bytes are characters of their own. *)
Lemma str_chars_from_plain (t cur : string) :
  Forall (fun c => is_continuation c = false) (String.list_ascii_of_string t) ->
  str_chars_from cur t
  = (str_emit cur
       ++ ((fun c => String c EmptyString) <$> String.list_ascii_of_string t))%list.
Proof.
  revert cur. induction t as [|c t IH]; intros cur Ht; simpl.
  - by rewrite app_nil_r.
  - simpl in Ht. apply Forall_cons in Ht as [Hc Ht].
    rewrite Hc. by rewrite IH.
Qed.

Lemma str_chars_from_app_plain (s t cur : string) :
  Forall (fun c => is_continuation c = false) (String.list_ascii_of_string t) ->
  str_chars_from cur (s +:+ t)
  = (str_chars_from cur s
       ++ ((fun c => String c EmptyString) <$> String.list_ascii_of_string t))%list.
Proof.
  intros Ht. revert cur. induction s as [|c s IH]; intros cur.
  - change ("" +:+ t) with t. by apply str_chars_from_plain.
  - rewrite string_app_cons. simpl.
    destruct (is_continuation c); [apply IH|].
    by rewrite IH, app_assoc.
Qed.

(** Cutting a suffix of plain bytes off by its length gives the rest. *)
Lemma str_slice_to_suffix (s suffix : string) :
  (0 < String.length suffix)%nat ->
  Forall (fun c => is_continuation c = false)
    (String.list_ascii_of_string suffix) ->
  str_slice_to (s +:+ suffix) (- Z.of_nat (String.length suffix)) = s.
Proof.
  intros Hpos Hplain. unfold str_slice_to, str_chars, slice_to.
  destruct (Z.leb_spec 0 (- Z.of_nat (String.length suffix))) as [Hle|Hlt]; [lia|].
  rewrite str_chars_from_app_plain by done.
  rewrite length_app, length_fmap, length_list_ascii_of_string.
  rewrite take_app_length' by lia.
  by rewrite str_concat_chars_from.
Qed.

(** A slice that drops as many characters as the string has is empty. *)
Lemma str_slice_to_short (s : string) (n : Z) :
  n < 0 -> Z.of_nat (length (str_chars s)) <= - n -> str_slice_to s n = "".
Proof.
  intros Hn Hlen. unfold str_slice_to, slice_to.
  destruct (Z.leb_spec 0 n); [lia|].
  replace (Z.to_nat (Z.of_nat (length (str_chars s)) + n)) with 0%nat by lia.
  by rewrite take_0.
Qed.

(** ** The cache file *)

Lemma cache_file_of_name (output_dir dir name : string) :
  "/"%char ∉ String.list_ascii_of_string name ->
  cache_file output_dir (dir +:+ String "/"%char name)
  = Ok (output_dir +:+ "/" +:+ str_slice_to name (-6) +:+ ".pkl").
Proof.
  intros Hname. unfold cache_file, str_split.
  rewrite (list_getitem_last _ name); [done|].
  rewrite last_str_split_from. by rewrite str_split_from_no_sep.
Qed.

(** The cache file of [dir/name.jsonl] is [output_dir/name.pkl]. *)
Theorem cache_file_of_jsonl (output_dir dir name : string) :
  "/"%char ∉ String.list_ascii_of_string name ->
  cache_file output_dir (dir +:+ "/" +:+ name +:+ ".jsonl")
  = Ok (output_dir +:+ "/" +:+ name +:+ ".pkl").
Proof.
  intros Hname.
  change (dir +:+ "/" +:+ name +:+ ".jsonl")
    with (dir +:+ String "/"%char (name +:+ ".jsonl")).
  rewrite cache_file_of_name.
  - change (-6) with (- Z.of_nat (String.length ".jsonl")).
    rewrite str_slice_to_suffix; [done|simpl; lia|].
    apply (bool_decide_unpack _). exact I.
  - rewrite list_ascii_of_string_app. apply not_elem_of_app. split; [done|].
    apply (bool_decide_unpack _). exact I.
Qed.

Lemma cache_file_of_jsonl_witness :
  ("/"%char ∉ String.list_ascii_of_string "valid")
  /\ cache_file "out" ("data" +:+ "/" +:+ "valid" +:+ ".jsonl")
     = Ok ("out" +:+ "/" +:+ "valid" +:+ ".pkl").
Proof.
  assert (Hname : "/"%char ∉ String.list_ascii_of_string "valid").
  { apply (bool_decide_unpack _). exact I. }
  split; [exact Hname|].
  apply (cache_file_of_jsonl "out" "data" "valid" Hname).
Defined.

(** The cache file depends on the last component of the path only, so
    data files of the same name in different directories share one cache
    file; and a name of at most six characters leaves an empty prefix. *)
Theorem cache_file_collisions (output_dir dir1 dir2 name : string) :
  "/"%char ∉ String.list_ascii_of_string name ->
  cache_file output_dir (dir1 +:+ "/" +:+ name)
  = cache_file output_dir (dir2 +:+ "/" +:+ name)
  /\ ((length (str_chars name) <= 6)%nat ->
      cache_file output_dir (dir1 +:+ "/" +:+ name)
      = Ok (output_dir +:+ "/" +:+ ".pkl")).
Proof.
  intros Hname.
  change (dir1 +:+ "/" +:+ name) with (dir1 +:+ String "/"%char name).
  change (dir2 +:+ "/" +:+ name) with (dir2 +:+ String "/"%char name).
  rewrite !cache_file_of_name by done. split; [done|].
  intros Hlen. rewrite str_slice_to_short; [done|lia|lia].
Qed.

Lemma cache_file_collisions_witness :
  ("/"%char ∉ String.list_ascii_of_string "test.jsonl")
  /\ cache_file "out" ("python" +:+ "/" +:+ "test.jsonl")
     = cache_file "out" ("java" +:+ "/" +:+ "test.jsonl")
  /\ cache_file "out" ("python" +:+ "/" +:+ "a.json")
     = Ok ("out" +:+ "/" +:+ ".pkl")
  /\ (length (str_chars (String "195" (String "169" ".json"))) <= 6)%nat
  /\ cache_file "out"
       ("python" +:+ "/" +:+ String "195" (String "169" ".json"))
     = Ok ("out" +:+ "/" +:+ ".pkl").
Proof.
  assert (H1 : "/"%char ∉ String.list_ascii_of_string "test.jsonl").
  { apply (bool_decide_unpack _). exact I. }
  assert (H2 : "/"%char ∉ String.list_ascii_of_string "a.json").
  { apply (bool_decide_unpack _). exact I. }
  assert (H3 : "/"%char ∉
               String.list_ascii_of_string (String "195" (String "169" ".json"))).
  { apply (bool_decide_unpack _). exact I. }
  assert (H4 : (length (str_chars (String "195" (String "169" ".json"))) <= 6)%nat).
  { simpl. lia. }
  split; [exact H1|]. split; [|split; [|split; [exact H4|]]].
  - apply (proj1 (cache_file_collisions "out" "python" "java" "test.jsonl" H1)).
  - apply (proj2 (cache_file_collisions "out" "python" "java" "a.json" H2)).
    simpl. lia.
  - apply (proj2 (cache_file_collisions "out" "python" "java"
                    (String "195" (String "169" ".json")) H3)).
    exact H4.
Defined.

(** A slice counts characters, not bytes: the six characters dropped from
    [caf\u00e9.json] leave [caf]. *)
Example cache_file_counts_characters :
  cache_file "out"
    ("data/caf" +:+ String "195" (String "169" ".json"))
  = Ok "out/caf.pkl".
Proof. vm_compute. reflexivity. Qed.

(** ** Comprehensions *)

Lemma comprehension_Ok {A B} (f : A -> result B) (l : list A) (ys : list B) :
  comprehension f l = Ok ys -> Forall2 (fun x y => f x = Ok y) l ys.
Proof.
  revert ys. induction l as [|x l IH]; intros ys; simpl.
  - intros [= <-]. constructor.
  - destruct (f x) as [y|e] eqn:Hx; [|done]. simpl.
    destruct (comprehension f l) as [ys'|e]; [|done]. simpl.
    intros [= <-]. constructor; [done|]. by apply IH.
Qed.

Lemma comprehension_ext {A B} (f g : A -> result B) (l : list A) :
  (forall x, x ∈ l -> f x = g x) -> comprehension f l = comprehension g l.
Proof.
  induction l as [|x l IH]; intros Hfg; simpl; [done|].
  rewrite (Hfg x) by left. rewrite IH; [done|].
  intros y Hy. apply Hfg. by right.
Qed.

(** A comprehension with a failing element raises. *)
Lemma comprehension_Raise {A B} (f : A -> result B) (l : list A) (x : A) e :
  x ∈ l -> f x = Raise e -> exists e', comprehension f l = Raise e'.
Proof.
  intros Hx Hfx. destruct (comprehension f l) as [ys|e'] eqn:Hc; [|by eexists].
  apply comprehension_Ok in Hc.
  destruct (proj1 (list_elem_of_lookup l x) Hx) as [i Hi].
  destruct (Forall2_lookup_l _ _ _ _ _ Hc Hi) as (y & _ & Hy). congruence.
Qed.

(** ** [TextDataset.__init__] *)

Section DatasetFacts.
Context {FS Tensor : Type}.
Context {Tree Node Span States : Type}.
Context `{Countable Span} `{Empty States}.
Implicit Types (io : TextDataset.io_imports (FS:=FS) (Tensor:=Tensor)).
Implicit Types (im : imports (Tree:=Tree) (Node:=Node) (Span:=Span) (States:=States)).

Lemma init_cached io im tok a p pool fs c :
  cache_file (dataset_args.output_dir a) p = Ok c ->
  TextDataset.os_path_exists io fs c = true ->
  TextDataset.init io im tok a (Some p) pool fs
  = (fs, result_map TextDataset.mk (TextDataset.pickle_load io fs c)).
Proof.
  intros Hc Hex.
  unfold TextDataset.init, eff_bind, eff_call, eff_read, eff_ret, result_map.
  rewrite Hc, Hex. by destruct (TextDataset.pickle_load io fs c).
Qed.

(** The records of a data file, as [__init__] hands them to the pool. *)
Lemma init_not_cached io im tok a p pool fs c :
  cache_file (dataset_args.output_dir a) p = Ok c ->
  TextDataset.os_path_exists io fs c = false ->
  TextDataset.init io im tok a (Some p) pool fs
  = match
      result_bind (TextDataset.read_lines io fs p) (fun lines =>
      result_bind
        (comprehension
           (fun line =>
              result_bind (TextDataset.json_loads_strip io line) (fun js =>
              Ok (js, tok, dataset_args.features a)))
           lines) (fun data =>
      result_bind
        match pool with
        | Some pool => Ok pool
        | None => Raise (Exception "AttributeError: map")
        end (fun pool =>
      Pool_map pool (convert_examples_to_features im) data)))
    with
    | Ok examples =>
        match TextDataset.pickle_dump io fs c examples with
        | (fs', Ok _) => (fs', Ok (TextDataset.mk examples))
        | (fs', Raise e) => (fs', Raise e)
        end
    | Raise e => (fs, Raise e)
    end.
Proof.
  intros Hc Hex.
  unfold TextDataset.init, eff_bind, eff_call, eff_read, eff_ret.
  rewrite Hc, Hex.
  destruct (TextDataset.read_lines io fs p) as [lines|e]; [|done]. simpl.
  destruct (comprehension _ lines) as [data|e]; [|done]. simpl.
  destruct pool as [pool|]; [|done]. simpl.
  by destruct (Pool_map pool (convert_examples_to_features im) data).
Qed.

(** When the cache file exists, the dataset is what loading the cache file
    gives (and [__init__] raises what loading raises): the data file, the
    tokenizer, the lengths and the language of [args], the imports and the
    pool are not looked at, and no file is written. *)
Theorem cached_dataset_ignores_arguments
    io im im' tok tok' a a' p pool pool' fs c :
  dataset_args.output_dir a = dataset_args.output_dir a' ->
  cache_file (dataset_args.output_dir a) p = Ok c ->
  TextDataset.os_path_exists io fs c = true ->
  TextDataset.init io im tok a (Some p) pool fs
  = (fs,
     match TextDataset.pickle_load io fs c with
     | Ok examples => Ok (TextDataset.mk examples)
     | Raise e => Raise e
     end)
  /\ TextDataset.init io im tok a (Some p) pool fs
     = TextDataset.init io im' tok' a' (Some p) pool' fs
  /\ fst (TextDataset.init io im tok a (Some p) pool fs) = fs.
Proof.
  intros Hout Hc Hex.
  rewrite (init_cached io im tok a p pool fs c) by done.
  rewrite (init_cached io im' tok' a' p pool' fs c); [done| |done].
  by rewrite <- Hout.
Qed.

(** Without a cache file and without a pool, [__init__] raises and writes
    no file. *)
Theorem dataset_without_pool_needs_cache io im tok a p fs c :
  cache_file (dataset_args.output_dir a) p = Ok c ->
  TextDataset.os_path_exists io fs c = false ->
  exists e, TextDataset.init io im tok a (Some p) None fs = (fs, Raise e).
Proof.
  intros Hc Hex. rewrite (init_not_cached io im tok a p None fs c) by done.
  destruct (TextDataset.read_lines io fs p) as [lines|e]; [|by eexists]. simpl.
  destruct (comprehension _ lines) as [data|e]; [|by eexists]. simpl.
  by eexists.
Qed.

(** One record that cannot be read or converted aborts the whole dataset:
    [__init__] raises and writes no cache file. *)
Theorem dataset_aborts_on_one_failure io im tok a p pool fs c lines line e0 :
  cache_file (dataset_args.output_dir a) p = Ok c ->
  TextDataset.os_path_exists io fs c = false ->
  TextDataset.read_lines io fs p = Ok lines ->
  line ∈ lines ->
  (TextDataset.json_loads_strip io line = Raise e0
   \/ exists js,
        TextDataset.json_loads_strip io line = Ok js
        /\ convert_examples_to_features im (js, tok, dataset_args.features a)
           = Raise e0) ->
  exists e, TextDataset.init io im tok a (Some p) pool fs = (fs, Raise e).
Proof.
  intros Hc Hex Hlines Hline Hfail.
  rewrite (init_not_cached io im tok a p pool fs c) by done.
  rewrite Hlines. simpl.
  destruct (comprehension _ lines) as [data|e] eqn:Hdata; [|by eexists]. simpl.
  destruct pool as [pool|]; [|by eexists]. simpl.
  destruct (Pool_map pool (convert_examples_to_features im) data)
    as [examples|e] eqn:Hmap; [|by eexists].
  exfalso. apply comprehension_Ok in Hdata, Hmap.
  destruct (proj1 (list_elem_of_lookup lines line) Hline) as [i Hi].
  destruct (Forall2_lookup_l _ _ _ _ _ Hdata Hi) as (d & Hd & Hjs).
  destruct (Forall2_lookup_l _ _ _ _ _ Hmap Hd) as (ex & _ & Hex').
  destruct Hfail as [Hraise|(js & Hjs' & Hconv)].
  - by rewrite Hraise in Hjs.
  - rewrite Hjs' in Hjs. simpl in Hjs. injection Hjs as <-. congruence.
Qed.
End DatasetFacts.

Section DatasetShape.
Context {FS Tensor : Type}.
Context {Tree Node Span States : Type}.
Context `{Countable Span} `{Empty States}.
Implicit Types (io : TextDataset.io_imports (FS:=FS) (Tensor:=Tensor)).
Implicit Types (im : imports (Tree:=Tree) (Node:=Node) (Span:=Span) (States:=States)).

Lemma convert_examples_to_features_lengths im js tok a ex :
  (forall pieces : list string,
      length (tokenizer.convert_tokens_to_ids tok pieces) = length pieces) ->
  2 <= args.code_length a ->
  2 <= args.nl_length a ->
  convert_examples_to_features im (js, tok, a) = Ok ex ->
  Z.of_nat (length (InputFeatures.code_ids ex)) = args.code_length a
  /\ Z.of_nat (length (InputFeatures.nl_ids ex)) = args.nl_length a.
Proof.
  intros Hids Hcode Hnl. unfold convert_examples_to_features.
  destruct (parsers_getitem im (args.lang a)) as [parser|e]; [|done]. simpl.
  destruct (extract_dataflow im _ parser _) as [[code_tokens dfg]|e]; [|done].
  simpl. intros [= <-]. simpl.
  split; apply length_padded; rewrite Hids; by apply length_wrapped.
Qed.

(** A dataset built from a data file has one example per line of the file,
    in the order of the lines, all with [code_length] code ids and
    [nl_length] text ids; and these examples are what is written to the
    cache file. *)
Theorem fresh_dataset_shape io im tok a p pool fs c lines fs' ds :
  (forall pieces : list string,
      length (tokenizer.convert_tokens_to_ids tok pieces) = length pieces) ->
  2 <= args.code_length (dataset_args.features a) ->
  2 <= args.nl_length (dataset_args.features a) ->
  cache_file (dataset_args.output_dir a) p = Ok c ->
  TextDataset.os_path_exists io fs c = false ->
  TextDataset.read_lines io fs p = Ok lines ->
  TextDataset.init io im tok a (Some p) pool fs = (fs', Ok ds) ->
  TextDataset.len ds = length lines
  /\ Forall2
       (fun line ex =>
          exists js,
            TextDataset.json_loads_strip io line = Ok js
            /\ convert_examples_to_features im (js, tok, dataset_args.features a)
               = Ok ex)
       lines (TextDataset.examples ds)
  /\ Forall
       (fun ex =>
          Z.of_nat (length (InputFeatures.code_ids ex))
          = args.code_length (dataset_args.features a)
          /\ Z.of_nat (length (InputFeatures.nl_ids ex))
             = args.nl_length (dataset_args.features a))
       (TextDataset.examples ds)
  /\ TextDataset.pickle_dump io fs c (TextDataset.examples ds) = (fs', Ok tt).
Proof.
  intros Hids Hcode Hnl Hc Hex Hlines.
  rewrite (init_not_cached io im tok a p pool fs c) by done.
  rewrite Hlines. simpl.
  destruct (comprehension _ lines) as [data|e] eqn:Hdata; [|done]. simpl.
  destruct pool as [pool|]; [|done]. simpl.
  destruct (Pool_map pool (convert_examples_to_features im) data)
    as [examples|e] eqn:Hmap; [|done].
  destruct (TextDataset.pickle_dump io fs c examples) as [fs1 [[]|e]] eqn:Hdump;
    [|done].
  intros [= <- <-]. simpl.
  apply comprehension_Ok in Hdata, Hmap.
  assert (Hall : Forall2
            (fun line ex =>
               exists js,
                 TextDataset.json_loads_strip io line = Ok js
                 /\ convert_examples_to_features im
                      (js, tok, dataset_args.features a) = Ok ex)
            lines examples).
  { apply Forall2_same_length_lookup. split.
    - by rewrite (Forall2_length _ _ _ Hdata), (Forall2_length _ _ _ Hmap).
    - intros i line ex Hi Hexi.
      destruct (Forall2_lookup_l _ _ _ _ _ Hdata Hi) as (d & Hd & Hjs).
      destruct (Forall2_lookup_l _ _ _ _ _ Hmap Hd) as (ex' & Hex' & Hconv).
      assert (ex' = ex) as -> by congruence.
      destruct (TextDataset.json_loads_strip io line) as [js|e]; [|done].
      simpl in Hjs. injection Hjs as <-. by exists js. }
  split; [|split; [done|split; [|done]]].
  - unfold TextDataset.len. simpl. symmetry. by eapply Forall2_length.
  - apply Forall_forall. intros ex Hin.
    destruct (proj1 (list_elem_of_lookup examples ex) Hin) as [i Hi].
    destruct (Forall2_lookup_r _ _ _ _ _ Hall Hi) as (line & _ & js & _ & Hconv).
    by eapply convert_examples_to_features_lengths.
Qed.

(** After a dataset has been built, building it again finds the cache file
    and returns the same examples, even without a pool and with another
    tokenizer or other lengths; this needs a file system on which a file
    that was dumped exists and loads as what was dumped. *)
Theorem dataset_reloads_from_cache
    io im im' tok tok' a a' p pool pool' fs fs' c ds :
  (forall fs0 fs1 path examples,
      TextDataset.pickle_dump io fs0 path examples = (fs1, Ok tt) ->
      TextDataset.os_path_exists io fs1 path = true
      /\ TextDataset.pickle_load io fs1 path = Ok examples) ->
  dataset_args.output_dir a = dataset_args.output_dir a' ->
  cache_file (dataset_args.output_dir a) p = Ok c ->
  TextDataset.os_path_exists io fs c = false ->
  TextDataset.init io im tok a (Some p) pool fs = (fs', Ok ds) ->
  TextDataset.init io im' tok' a' (Some p) pool' fs' = (fs', Ok ds).
Proof.
  intros Hlaw Hout Hc Hex.
  rewrite (init_not_cached io im tok a p pool fs c) by done.
  destruct (result_bind (TextDataset.read_lines io fs p) _) as [examples|e];
    [|done].
  destruct (TextDataset.pickle_dump io fs c examples) as [fs1 [[]|e]] eqn:Hdump;
    [|done].
  intros [= <- <-].
  destruct (Hlaw _ _ _ _ Hdump) as [Hex1 Hload].
  rewrite (init_cached io im' tok' a' p pool' fs1 c); [|by rewrite <- Hout|done].
  by rewrite Hload.
Qed.
End DatasetShape.

(** ** [TextDataset.__getitem__] *)

Lemma list_getitem_nonneg {A} (l : list A) (i : nat) (x : A) :
  l !! i = Some x -> list_getitem l (Z.of_nat i) = Ok x.
Proof.
  intros Hi. pose proof (lookup_lt_Some _ _ _ Hi) as Hlt.
  unfold list_getitem.
  destruct (Z.ltb_spec (Z.of_nat i) 0); [lia|].
  destruct (Z.leb_spec 0 (Z.of_nat i)); [|lia].
  destruct (Z.ltb_spec (Z.of_nat i) (Z.of_nat (length l))); [|lia].
  simpl. by rewrite Nat2Z.id, Hi.
Qed.

Lemma list_getitem_negative {A} (l : list A) (i : Z) :
  0 <= i < Z.of_nat (length l) ->
  list_getitem l (i - Z.of_nat (length l)) = list_getitem l i.
Proof.
  intros Hi. unfold list_getitem.
  destruct (Z.ltb_spec (i - Z.of_nat (length l)) 0); [|lia].
  destruct (Z.ltb_spec i 0); [lia|].
  by replace (i - Z.of_nat (length l) + Z.of_nat (length l)) with i by lia.
Qed.

Lemma list_getitem_out_of_range {A} (l : list A) (i : Z) :
  i < - Z.of_nat (length l) \/ Z.of_nat (length l) <= i ->
  list_getitem l i = Raise (Exception "IndexError").
Proof.
  intros Hi. unfold list_getitem.
  destruct (Z.ltb_spec i 0).
  - destruct (Z.leb_spec 0 (i + Z.of_nat (length l))); [|done].
    destruct (Z.ltb_spec (i + Z.of_nat (length l)) (Z.of_nat (length l)));
      [lia|done].
  - destruct (Z.leb_spec 0 i); [|done].
    destruct (Z.ltb_spec i (Z.of_nat (length l))); [lia|done].
Qed.

Section GetitemFacts.
Context {FS Tensor : Type}.
Implicit Types (io : TextDataset.io_imports (FS:=FS) (Tensor:=Tensor)).

(** [dataset[i]] pairs the code ids and the text ids of one and the same
    example; the index [i - len(dataset)] is the item of index [i]; and an
    index below [-len(dataset)] or from [len(dataset)] on raises
    [IndexError] before any tensor is made. *)
Theorem getitem_bounds io (ds : TextDataset.t) :
  (forall (i : nat) ex,
      TextDataset.examples ds !! i = Some ex ->
      TextDataset.getitem io ds (Z.of_nat i)
      = result_bind (TextDataset.torch_tensor io (InputFeatures.code_ids ex))
          (fun code =>
           result_bind (TextDataset.torch_tensor io (InputFeatures.nl_ids ex))
             (fun nl => Ok (code, nl))))
  /\ (forall i : Z,
        0 <= i < Z.of_nat (TextDataset.len ds) ->
        TextDataset.getitem io ds (i - Z.of_nat (TextDataset.len ds))
        = TextDataset.getitem io ds i)
  /\ (forall i : Z,
        i < - Z.of_nat (TextDataset.len ds) \/ Z.of_nat (TextDataset.len ds) <= i ->
        TextDataset.getitem io ds i = Raise (Exception "IndexError")).
Proof.
  unfold TextDataset.getitem, TextDataset.len. split; [|split].
  - intros i ex Hi. rewrite (list_getitem_nonneg _ _ _ Hi). simpl.
    by destruct (TextDataset.torch_tensor io (InputFeatures.code_ids ex)).
  - intros i Hi. by rewrite list_getitem_negative.
  - intros i Hi. by rewrite list_getitem_out_of_range.
Qed.
End GetitemFacts.

(** ** The ranking loop of [evaluate] *)

Lemma slice_between_take {A} (l : list A) (a b k : nat) :
  (a <= b)%nat -> (b <= k)%nat ->
  slice_between (take k l) a b = slice_between l a b.
Proof.
  intros Hab Hbk. unfold slice_between.
  rewrite !take_drop_commute, take_take.
  by replace (min (a + (b - a)) k) with (a + (b - a))%nat by lia.
Qed.

Section RankingFacts.
Context {V R : Type}.
Implicit Types (reciprocal_ranks : list V -> list V -> result (list R)).

(** With fewer than 1000 queries the loop runs no iteration and
    [np.concatenate] is given an empty list: [evaluate] raises
    [ValueError], whatever the vectors are. *)
Theorem evaluate_ranks_needs_1000_queries reciprocal_ranks
    (len_query_dataset : nat) (nl_vecs code_vecs : list V) :
  (len_query_dataset < 1000)%nat ->
  evaluate_ranks reciprocal_ranks len_query_dataset nl_vecs code_vecs
  = Raise (Exception "ValueError: need at least one array to concatenate").
Proof.
  intros Hlt. unfold evaluate_ranks, range.
  by rewrite (Nat.div_small _ _ Hlt).
Qed.

(** Only the first [1000 * (n // 1000)] vectors are ranked: the vectors of
    the last [n % 1000] queries do not reach the result. *)
Theorem evaluate_ranks_ignores_tail reciprocal_ranks
    (len_query_dataset : nat) (nl_vecs nl_vecs' code_vecs code_vecs' : list V) :
  take (1000 * (len_query_dataset / 1000)) nl_vecs
  = take (1000 * (len_query_dataset / 1000)) nl_vecs' ->
  take (1000 * (len_query_dataset / 1000)) code_vecs
  = take (1000 * (len_query_dataset / 1000)) code_vecs' ->
  evaluate_ranks reciprocal_ranks len_query_dataset nl_vecs code_vecs
  = evaluate_ranks reciprocal_ranks len_query_dataset nl_vecs' code_vecs'.
Proof.
  intros Hnl Hcode. unfold evaluate_ranks, range. f_equal.
  apply comprehension_ext. intros i Hi.
  apply elem_of_seq in Hi as [_ Hi].
  set (q := (len_query_dataset / 1000)%nat) in *.
  assert (Hle : (1000 * (i + 1) <= 1000 * q)%nat) by lia.
  cbv zeta.
  rewrite <- (slice_between_take nl_vecs _ _ (1000 * q)) by lia.
  rewrite <- (slice_between_take code_vecs _ _ (1000 * q)) by lia.
  rewrite Hnl, Hcode.
  by rewrite !slice_between_take by lia.
Qed.
End RankingFacts.

(** ** [set_seed] *)

Section SetSeedFacts.
Context {RNG : Type}.

(** [set_seed] never changes the environment variable [PYTHONHASHSEED]:
    the variable it writes, when it gets past the first seeding call, is
    [PYHTONHASHSEED]; and when it completes, this is the only change to
    the environment. *)
Theorem set_seed_leaves_PYTHONHASHSEED (si : seed_imports (RNG:=RNG))
    (seed : Z) (p : process RNG) :
  environ (fst (set_seed si seed p)) !! "PYTHONHASHSEED"
  = environ p !! "PYTHONHASHSEED"
  /\ (snd (set_seed si seed p) = Ok tt ->
      environ (fst (set_seed si seed p))
      = <["PYHTONHASHSEED" := pretty seed]> (environ p)).
Proof.
  unfold set_seed, eff_bind, on_generators, environ_setitem.
  destruct (random_seed si seed (generators p)) as [g1 [[]|e1]]; simpl; [|done].
  destruct (np_random_seed si seed g1) as [g2 [[]|e2]]; simpl;
    [|by rewrite lookup_insert_ne].
  destruct (torch_manual_seed si seed g2) as [g3 [[]|e3]]; simpl;
    [|by rewrite lookup_insert_ne].
  destruct (torch_cuda_manual_seed si seed g3) as [g4 [[]|e4]]; simpl;
    by rewrite lookup_insert_ne.
Qed.
End SetSeedFacts.

(** ** The theorems at the instance of [DiskFixture] *)

(** On the file system of [DiskFixture] a dumped file exists and loads as
    what was dumped. *)
Lemma disk_dump_load (fs0 fs1 : DiskFixture.FS) (path : string)
    (examples : list InputFeatures.t) :
  TextDataset.pickle_dump DiskFixture.io fs0 path examples = (fs1, Ok tt) ->
  TextDataset.os_path_exists DiskFixture.io fs1 path = true
  /\ TextDataset.pickle_load DiskFixture.io fs1 path = Ok examples.
Proof.
  unfold DiskFixture.io. simpl.
  unfold DiskFixture.dump, DiskFixture.exists_, DiskFixture.load.
  intros [= <-]. unfold DiskFixture.FS in *.
  rewrite lookup_insert_eq. split; [|done].
  apply bool_decide_eq_true_2. by eexists.
Qed.

Lemma cached_dataset_ignores_arguments_witness :
  let cached :=
    [InputFeatures.init ["<s>"; "old"; "</s>"] [3; 3; 4]
       ["<s>"; "</s>"] [3; 4] "https://example.org/old"] in
  let fs : DiskFixture.FS :=
    <["out/valid.pkl" := DiskFixture.Pickled cached]> DiskFixture.disk in
  TextDataset.init DiskFixture.io Fixture.im_ok Fixture.space_tokenizer
    DiskFixture.run_args (Some "data/valid.jsonl")
    (Some (multiprocessing_Pool 16)) fs
  = (fs, Ok (TextDataset.mk cached))
  /\ TextDataset.init DiskFixture.io Fixture.im_ok Fixture.space_tokenizer
       DiskFixture.run_args (Some "data/valid.jsonl")
       (Some (multiprocessing_Pool 16)) fs
     = TextDataset.init DiskFixture.io Fixture.im_parse_fails
         (tokenizer.mk (fun s => [s]) (fmap (fun _ => 0)) "[CLS]" "[SEP]" 0)
         (dataset_args.mk (args.mk "go" 512 64) "out")
         (Some "data/valid.jsonl") None fs
  /\ fst (TextDataset.init DiskFixture.io Fixture.im_ok Fixture.space_tokenizer
            DiskFixture.run_args (Some "data/valid.jsonl")
            (Some (multiprocessing_Pool 16)) fs)
     = fs.
Proof.
  intros cached fs.
  apply (cached_dataset_ignores_arguments DiskFixture.io Fixture.im_ok
           Fixture.im_parse_fails Fixture.space_tokenizer
           (tokenizer.mk (fun s => [s]) (fmap (fun _ => 0)) "[CLS]" "[SEP]" 0)
           DiskFixture.run_args (dataset_args.mk (args.mk "go" 512 64) "out")
           "data/valid.jsonl" (Some (multiprocessing_Pool 16)) None
           fs "out/valid.pkl").
  - reflexivity.
  - vm_compute. reflexivity.
  - vm_compute. reflexivity.
Defined.

Lemma dataset_without_pool_needs_cache_witness :
  exists e,
    TextDataset.init DiskFixture.io Fixture.im_ok Fixture.space_tokenizer
      DiskFixture.run_args (Some "data/valid.jsonl") None DiskFixture.disk
    = (DiskFixture.disk, Raise e).
Proof.
  apply (dataset_without_pool_needs_cache DiskFixture.io Fixture.im_ok
           Fixture.space_tokenizer DiskFixture.run_args "data/valid.jsonl"
           DiskFixture.disk "out/valid.pkl").
  - vm_compute. reflexivity.
  - vm_compute. reflexivity.
Defined.

Lemma dataset_aborts_on_one_failure_witness :
  (exists e,
      TextDataset.init DiskFixture.io Fixture.im_ok Fixture.space_tokenizer
        DiskFixture.run_args (Some "data/valid.jsonl")
        (Some (multiprocessing_Pool 16)) DiskFixture.disk_bad_line
      = (DiskFixture.disk_bad_line, Raise e))
  /\ (exists e,
        TextDataset.init DiskFixture.io Fixture.im_parse_fails
          Fixture.space_tokenizer DiskFixture.run_args (Some "data/valid.jsonl")
          (Some (multiprocessing_Pool 16)) DiskFixture.disk
        = (DiskFixture.disk, Raise e)).
Proof.
  split.
  - apply (dataset_aborts_on_one_failure DiskFixture.io Fixture.im_ok
             Fixture.space_tokenizer DiskFixture.run_args "data/valid.jsonl"
             (Some (multiprocessing_Pool 16)) DiskFixture.disk_bad_line
             "out/valid.pkl" ["x = 1"; ""] ""
             (Exception "JSONDecodeError")).
    + vm_compute. reflexivity.
    + vm_compute. reflexivity.
    + vm_compute. reflexivity.
    + apply list_elem_of_further, list_elem_of_here.
    + left. reflexivity.
  - apply (dataset_aborts_on_one_failure DiskFixture.io Fixture.im_parse_fails
             Fixture.space_tokenizer DiskFixture.run_args "data/valid.jsonl"
             (Some (multiprocessing_Pool 16)) DiskFixture.disk
             "out/valid.pkl" ["x = 1"; "y = x"] "x = 1"
             (UnboundLocalError "code_tokens")).
    + vm_compute. reflexivity.
    + vm_compute. reflexivity.
    + vm_compute. reflexivity.
    + apply list_elem_of_here.
    + right. eexists. split; vm_compute; reflexivity.
Defined.

Lemma fresh_dataset_shape_witness :
  exists fs' ds,
    TextDataset.init DiskFixture.io Fixture.im_ok Fixture.space_tokenizer
      DiskFixture.run_args (Some "data/valid.jsonl")
      (Some (multiprocessing_Pool 16)) DiskFixture.disk = (fs', Ok ds)
    /\ TextDataset.len ds = 2%nat
    /\ Forall
         (fun ex =>
            Z.of_nat (length (InputFeatures.code_ids ex)) = 6
            /\ Z.of_nat (length (InputFeatures.nl_ids ex)) = 8)
         (TextDataset.examples ds).
Proof.
  destruct (TextDataset.init DiskFixture.io Fixture.im_ok
              Fixture.space_tokenizer DiskFixture.run_args
              (Some "data/valid.jsonl") (Some (multiprocessing_Pool 16))
              DiskFixture.disk) as [fs' [ds|e]] eqn:Hinit.
  - exists fs', ds. split; [reflexivity|].
    destruct (fresh_dataset_shape DiskFixture.io Fixture.im_ok
                Fixture.space_tokenizer DiskFixture.run_args "data/valid.jsonl"
                (Some (multiprocessing_Pool 16)) DiskFixture.disk
                "out/valid.pkl" ["x = 1"; "y = x"] fs' ds)
      as (Hlen & _ & Hall & _).
    + intros pieces. apply length_fmap.
    + simpl. lia.
    + simpl. lia.
    + vm_compute. reflexivity.
    + vm_compute. reflexivity.
    + vm_compute. reflexivity.
    + exact Hinit.
    + split; [exact Hlen|exact Hall].
  - vm_compute in Hinit. discriminate Hinit.
Defined.

Lemma dataset_reloads_from_cache_witness :
  exists fs' ds,
    TextDataset.init DiskFixture.io Fixture.im_ok Fixture.space_tokenizer
      DiskFixture.run_args (Some "data/valid.jsonl")
      (Some (multiprocessing_Pool 16)) DiskFixture.disk = (fs', Ok ds)
    /\ TextDataset.init DiskFixture.io Fixture.im_parse_fails
         Fixture.space_tokenizer
         (dataset_args.mk (args.mk "go" 512 64) "out")
         (Some "data/valid.jsonl") None fs' = (fs', Ok ds).
Proof.
  destruct (TextDataset.init DiskFixture.io Fixture.im_ok
              Fixture.space_tokenizer DiskFixture.run_args
              (Some "data/valid.jsonl") (Some (multiprocessing_Pool 16))
              DiskFixture.disk) as [fs' [ds|e]] eqn:Hinit.
  - exists fs', ds. split; [reflexivity|].
    apply (dataset_reloads_from_cache DiskFixture.io Fixture.im_ok
             Fixture.im_parse_fails Fixture.space_tokenizer
             Fixture.space_tokenizer DiskFixture.run_args
             (dataset_args.mk (args.mk "go" 512 64) "out") "data/valid.jsonl"
             (Some (multiprocessing_Pool 16)) None DiskFixture.disk fs'
             "out/valid.pkl" ds).
    + apply disk_dump_load.
    + reflexivity.
    + vm_compute. reflexivity.
    + vm_compute. reflexivity.
    + exact Hinit.
  - vm_compute in Hinit. discriminate Hinit.
Defined.

Lemma evaluate_ranks_needs_1000_queries_witness :
  evaluate_ranks (fun nl code : list Z => Ok (nl ++ code)%list) 999 [1; 2] [3; 4]
  = Raise (Exception "ValueError: need at least one array to concatenate").
Proof.
  apply (evaluate_ranks_needs_1000_queries
           (fun nl code : list Z => Ok (nl ++ code)%list) 999 [1; 2] [3; 4]).
  lia.
Defined.

Lemma evaluate_ranks_ignores_tail_witness :
  evaluate_ranks (fun nl code : list Z => Ok (nl ++ code)%list) 1001
    (replicate 1000 0 ++ [1])%list (replicate 1000 5 ++ [6])%list
  = evaluate_ranks (fun nl code : list Z => Ok (nl ++ code)%list) 1001
      (replicate 1000 0 ++ [2])%list (replicate 1000 5 ++ [7])%list.
Proof.
  apply (evaluate_ranks_ignores_tail
           (fun nl code : list Z => Ok (nl ++ code)%list) 1001
           (replicate 1000 0 ++ [1])%list (replicate 1000 0 ++ [2])%list
           (replicate 1000 5 ++ [6])%list (replicate 1000 5 ++ [7])%list);
    vm_compute; reflexivity.
Defined.
